(** * apg / adbc: identifier checks, the predicate compiler, primary keys and
      the hierarchical store aggregation

    A shallow embedding of [adbc/sql.py], [adbc/table.py] and [apg/store.py].
    Python values are an inductive type, dicts are association lists in
    insertion order, exceptions are an error type, and the shared, mutable
    [args] list of [where_clause] is explicit state that survives a raise. *)

From Stdlib Require Import String Ascii List ZArith Lia Bool Permutation.
From Stdlib Require Import DecimalString.
From Stdlib Require DecimalNat Sorted.
Import ListNotations.
Open Scope string_scope.

#[local] Set Warnings "-register-all".

(** ** Characters and strings *)

(** The double quote, the newline and the backslash, by code. *)
Definition dq_char : ascii := "034"%char.
Definition nl_char : ascii := "010"%char.
Definition bs_char : ascii := "092"%char.

Definition dq : string := String dq_char "".
Definition nl : string := String nl_char "".
Definition bs : string := String bs_char "".

Definition code (c : ascii) : nat := nat_of_ascii c.

Definition in_range (lo hi c : ascii) : bool :=
  (code lo <=? code c)%nat && (code c <=? code hi)%nat.

Definition is_lower (c : ascii) : bool := in_range "a" "z" c.
Definition is_upper (c : ascii) : bool := in_range "A" "Z" c.
Definition is_digit (c : ascii) : bool := in_range "0" "9" c.

(** Python's [str.upper] on ASCII text. *)
Definition upper_char (c : ascii) : ascii :=
  if is_lower c then ascii_of_nat (code c - 32) else c.

Fixpoint upper (s : string) : string :=
  match s with
  | EmptyString => EmptyString
  | String c r => String (upper_char c) (upper r)
  end.

Fixpoint starts_with (p s : string) : bool :=
  match p, s with
  | EmptyString, _ => true
  | String a p', String b s' => Ascii.eqb a b && starts_with p' s'
  | String _ _, EmptyString => false
  end.

(** Python's [sub in s]. *)
Fixpoint str_contains (sub s : string) : bool :=
  starts_with sub s ||
  match s with
  | EmptyString => false
  | String _ r => str_contains sub r
  end.

Fixpoint chars (s : string) : list ascii :=
  match s with
  | EmptyString => []
  | String c r => c :: chars r
  end.

(** Python's [sep.join(parts)]. *)
Fixpoint join (sep : string) (parts : list string) : string :=
  match parts with
  | [] => ""
  | [p] => p
  | p :: rest => p ++ sep ++ join sep rest
  end.

(** [str.replace(old, new)] for a one-character [old]. *)
Fixpoint replace_char (old : ascii) (new : string) (s : string) : string :=
  match s with
  | EmptyString => EmptyString
  | String c r =>
      if Ascii.eqb c old then new ++ replace_char old new r
      else String c (replace_char old new r)
  end.

(** Decimal text of a natural number and of an integer, as [str(n)] gives. *)
Definition dec (n : nat) : string := NilEmpty.string_of_uint (Nat.to_uint n).
Definition dec_Z (z : Z) : string := NilZero.string_of_int (Z.to_int z).

(** ** Exceptions and results *)

Inductive exn : Type :=
| Exception_ (msg : string)
| ValueError (msg : string)
| AssertionError
| AttributeError
| TypeError
| IndexError
| NotImplementedError.

Inductive result (A : Type) : Type :=
| Ok (a : A)
| Raise (e : exn).
Arguments Ok {A} a.
Arguments Raise {A} e.

Definition is_ok {A} (r : result A) : bool :=
  match r with Ok _ => true | Raise _ => false end.

(** ** Identifiers (adbc/sql.py) *)

(** A regular expression, as far as [IDENTIFIER_REGEX] needs one: anchors,
    one character of a class, and a starred class. *)
Inductive atom : Type :=
| Bol
| Eol
| Class (p : ascii -> bool)
| StarClass (p : ascii -> bool).

(** Python's [$] (no MULTILINE flag): the end of the string, or just before
    a newline that is the last character. *)
Definition at_eol (s : string) : bool :=
  match s with
  | EmptyString => true
  | String c EmptyString => Ascii.eqb c nl_char
  | _ => false
  end.

(** [re.match]: the atoms match a prefix of [s]; [start] tells whether the
    position is the beginning of the string. A starred class tries every
    number of repetitions. *)
Fixpoint re_match (re : list atom) (start : bool) (s : string) : bool :=
  match re with
  | [] => true
  | Bol :: re' => start && re_match re' start s
  | Eol :: re' => at_eol s && re_match re' start s
  | Class p :: re' =>
      match s with
      | String c r => p c && re_match re' false r
      | EmptyString => false
      end
  | StarClass p :: re' =>
      (fix star (start : bool) (s : string) : bool :=
         re_match re' start s ||
         match s with
         | String c r => p c && star false r
         | EmptyString => false
         end) start s
  end.

Definition is_alpha (c : ascii) : bool := is_lower c || is_upper c.

(** The class [[-_a-zA-Z0-9$]]. *)
Definition is_ident_char (c : ascii) : bool :=
  Ascii.eqb c "-" || Ascii.eqb c "_" || is_lower c || is_upper c
  || is_digit c || Ascii.eqb c "$".

(** [IDENTIFIER_REGEX = re.compile("^[a-zA-Z][-_a-zA-Z0-9$]*$")] *)
Definition IDENTIFIER_REGEX : list atom :=
  [Bol; Class is_alpha; StarClass is_ident_char; Eol].

Definition check_identifier (ident : string) : result string :=
  if negb (re_match IDENTIFIER_REGEX true ident)
  then Raise (Exception_ ("invalid identifier name: " ++ ident))
  else Ok ident.

Definition quote (ident : string) : string := dq ++ ident ++ dq.

Definition parens (value : string) : string := "(" ++ value ++ ")".

(** Sequencing of fallible steps. *)
Definition rbind {A B} (r : result A) (f : A -> result B) : result B :=
  match r with
  | Ok a => f a
  | Raise e => Raise e
  end.

(** [if x:] on an optional string: [None] and the empty string are falsy. *)
Definition given (o : option string) : option string :=
  match o with
  | Some s => if String.eqb s "" then None else Some s
  | None => None
  end.

(** [format_table(table, schema=None, check=True)] *)
Definition format_table (table : string) (schema : option string)
  (check : bool) : result string :=
  rbind (if check
         then rbind (check_identifier table) (fun _ =>
              match given schema with
              | Some s => check_identifier s
              | None => Ok table
              end)
         else Ok table) (fun _ =>
  match given schema with
  | Some s => Ok (quote s ++ "." ++ quote table)
  | None => Ok (quote table)
  end).

(** [format_column(col, check=True, table=None, schema=None)] *)
Definition format_column (col : string) (check : bool)
  (table schema : option string) : result string :=
  rbind (if check then check_identifier col else Ok col) (fun _ =>
  match given table with
  | Some t =>
      rbind (format_table t schema check) (fun table =>
      Ok (table ++ "." ++ quote col))
  | None => Ok (quote col)
  end).

(** ** escape_like *)

Definition escape_like (like : string) : string :=
  let like := replace_char bs_char (bs ++ bs) like in
  let like := replace_char "%" (bs ++ "%") like in
  let like := replace_char "_" (bs ++ "_") like in
  like.

(** [params_list(start, num)] *)
Definition params_list (start num : nat) : list string :=
  map (fun i => "$" ++ dec (start + i)) (seq 0 num).

(** ** Python values *)

Inductive pyval : Type :=
| PNone
| PBool (b : bool)
| PInt (z : Z)
| PStr (s : string)
| PList (l : list pyval)
| PTuple (l : list pyval)
| PDict (d : list (string * pyval)).

(** A dict with string keys, in insertion order. *)
Definition dict (V : Type) : Type := list (string * V).

Fixpoint dict_lookup {V} (key : string) (d : dict V) : option V :=
  match d with
  | [] => None
  | (k, v) :: r => if String.eqb k key then Some v else dict_lookup key r
  end.

(** [d[key] = v]: an existing key keeps its position. *)
Fixpoint dict_set {V} (key : string) (v : V) (d : dict V) : dict V :=
  match d with
  | [] => [(key, v)]
  | (k, w) :: r =>
      if String.eqb k key then (k, v) :: r else (k, w) :: dict_set key v r
  end.

(** A dict display [{k1: v1, k2: v2, ...}]. *)
Definition dict_of_items {V} (items : list (string * V)) : dict V :=
  fold_left (fun d kv => dict_set (fst kv) (snd kv) d) items [].

(** [where.get(key)]: the value, or [None]. *)
Definition dict_get (key : string) (d : dict pyval) : pyval :=
  match dict_lookup key d with
  | Some v => v
  | None => PNone
  end.

(** [bool(v)] *)
Definition truthy (v : pyval) : bool :=
  match v with
  | PNone => false
  | PBool b => b
  | PInt z => negb (Z.eqb z 0)
  | PStr s => negb (String.eqb s "")
  | PList l | PTuple l => match l with [] => false | _ => true end
  | PDict d => match d with [] => false | _ => true end
  end.

Definition hex_digit (n : nat) : ascii :=
  nth n (chars "0123456789abcdef") "0"%char.

(** The quote [repr] puts around a text: a double quote when the text holds
    an apostrophe and no double quote, an apostrophe otherwise. *)
Definition repr_quote (s : string) : ascii :=
  if existsb (Ascii.eqb "'") (chars s)
     && negb (existsb (Ascii.eqb dq_char) (chars s))
  then dq_char else "'"%char.

(** One character inside [repr] of a text: the quote and the backslash get
    a backslash, tab, newline and carriage return their letter, any other
    control character its two hexadecimal digits; all else stays (bytes
    above 127 are taken as parts of printable characters). *)
Definition repr_char (q c : ascii) : string :=
  if Ascii.eqb c q || Ascii.eqb c bs_char then String bs_char (String c "")
  else if Ascii.eqb c "009" then bs ++ "t"
  else if Ascii.eqb c nl_char then bs ++ "n"
  else if Ascii.eqb c "013" then bs ++ "r"
  else if (code c <? 32)%nat || (code c =? 127)%nat then
    bs ++ "x" ++ String (hex_digit (code c / 16))
                   (String (hex_digit (code c mod 16)) "")
  else String c "".

Fixpoint repr_chars (q : ascii) (s : string) : string :=
  match s with
  | EmptyString => EmptyString
  | String c r => repr_char q c ++ repr_chars q r
  end.

(** [repr(s)] of a text. *)
Definition py_repr_str (s : string) : string :=
  let q := repr_quote s in
  String q (repr_chars q s ++ String q "").

(** [repr(v)] *)
Fixpoint py_repr (v : pyval) : string :=
  match v with
  | PNone => "None"
  | PBool true => "True"
  | PBool false => "False"
  | PInt z => dec_Z z
  | PStr s => py_repr_str s
  | PList l => "[" ++ join ", " (map py_repr l) ++ "]"
  | PTuple l =>
      "(" ++ join ", " (map py_repr l)
          ++ (match l with [_] => "," | _ => "" end) ++ ")"
  | PDict d =>
      "{" ++ join ", "
               (map (fun kv => py_repr_str (fst kv) ++ ": " ++ py_repr (snd kv)) d)
          ++ "}"
  end.

(** [str(v)] *)
Definition py_str (v : pyval) : string :=
  match v with
  | PStr s => s
  | _ => py_repr v
  end.

(** ** Templates (adbc/template.py) *)

Inductive piece : Type :=
| Lit (c : ascii)
| Var (name : string).

Inductive scan_state : Type :=
| Text
| Open1
| InVar (name : string)
| Close1 (name : string).

(** Modelled from the spec: [adbc.template] is not under src/. A template is
    text with placeholders written [{{ name }}]; the scanner reads it into
    literal characters and placeholder names. A placeholder left open at the
    end of the template is dropped. *)
Fixpoint scan (st : scan_state) (s : string) : list piece :=
  match s with
  | EmptyString =>
      match st with
      | Open1 => [Lit "{"]
      | _ => []
      end
  | String c r =>
      match st with
      | Text =>
          if Ascii.eqb c "{" then scan Open1 r else Lit c :: scan Text r
      | Open1 =>
          if Ascii.eqb c "{" then scan (InVar "") r
          else Lit "{" :: Lit c :: scan Text r
      | InVar n =>
          if Ascii.eqb c " " then scan (InVar n) r
          else if Ascii.eqb c "}" then scan (Close1 n) r
          else scan (InVar (n ++ String c "")) r
      | Close1 n =>
          if Ascii.eqb c "}" then Var n :: scan Text r
          else scan (InVar (n ++ "}" ++ String c "")) r
      end
  end.

Definition parse_template (template : string) : list piece := scan Text template.

(** Modelled from the spec: [get_context_variables] is not under src/; it
    gives the placeholders a template needs ([field], [value], [not]), here
    in the order of their first occurrence. *)
Definition get_context_variables (template : string) : list string :=
  nodup string_dec
    (flat_map (fun p => match p with Var n => [n] | Lit _ => [] end)
       (parse_template template)).

Definition render_piece (context : dict pyval) (p : piece) : string :=
  match p with
  | Lit c => String c ""
  | Var n =>
      match dict_lookup n context with
      | Some v => py_str v
      | None => ""
      end
  end.

(** Modelled from the spec: [resolve_template] is not under src/; it
    substitutes each placeholder by the text of its value in the context
    (nothing for a name the context lacks). *)
Definition resolve_template (template : string) (context : dict pyval) : string :=
  fold_right append "" (map (render_piece context) (parse_template template)).

(** ** The operator registry *)

Definition OPERATORS_display : list (string * string) :=
  [ ("equal", dq ++ "{{ field }}" ++ dq ++ " = {{ value }}");
    ("less", dq ++ "{{ field }}" ++ dq ++ " < {{ value }}");
    ("at.most", dq ++ "{{ field }}" ++ dq ++ " <= {{ value }}");
    ("greater", dq ++ "{{ field }}" ++ dq ++ " > {{ value }}");
    ("at.least", dq ++ "{{ field }}" ++ dq ++ " >= {{ value }}");
    ("like", dq ++ "{{ field }}" ++ dq ++ " LIKE {{ value }}");
    ("ilike", dq ++ "{{ field }}" ++ dq ++ " ILIKE {{ value }}");
    ("not.equal", dq ++ "{{ field }}" ++ dq ++ " != {{ value }}");
    ("is.null", dq ++ "{{ field }}" ++ dq ++ " IS {{ not }}NULL");
    ("starts.with", dq ++ "{{ field }}" ++ dq ++ " LIKE {{ value }}");
    ("istarts.with", dq ++ "{{ field }}" ++ dq ++ " ILIKE {{ value }}");
    ("iends.with", dq ++ "{{ field }}" ++ dq ++ " ILIKE {{ value }}");
    ("contains", dq ++ "{{ field }}" ++ dq ++ " LIKE {{ value }}");
    ("icontains", dq ++ "{{ field }}" ++ dq ++ " ILIKE {{ value }}");
    ("in", dq ++ "{{ field }}" ++ dq ++ " IN {{ value }}");
    ("not.equal", dq ++ "{{ field }}" ++ dq ++ " != {{ value }}") ].

(** [OPERATORS[n1] = OPERATORS[n2] = ... = OPERATORS[canonical]]: the
    targets are assigned from left to right. *)
Definition alias (names : list string) (canonical : string)
  (d : dict string) : dict string :=
  match dict_lookup canonical d with
  | Some v => fold_left (fun d n => dict_set n v d) names d
  | None => d
  end.

Definition OPERATORS : dict string :=
  Eval vm_compute in
    alias ["~~"] "ilike"
   (alias ["~"] "like"
   (alias ["less.equal"; "<="] "at.most"
   (alias ["greater.equal"; ">="] "at.least"
   (alias ["greater.than"; ">"] "greater"
   (alias ["less.than"; "<"] "less"
   (alias ["eq"; "equals"; "="] "equal"
   (alias ["ne"; "!="; "<>"] "not.equal"
   (dict_of_items OPERATORS_display)))))))).

Definition OPERATOR_TRANSLATE : dict string :=
  Eval vm_compute in
    dict_of_items
      [ ("starts.with", "{{ value }}%");
        ("istarts.with", "{{ value }}%");
        ("ends.with", "%{{ value }}");
        ("iends.with", "%{{ value }}");
        ("contains", "%{{ value }}%");
        ("icontains", "%{{ value }}%") ].

(** ** The predicate compiler (adbc/sql.py, where_clause) *)

(** A computation over the shared [args] list. The list is mutated in place
    by the source, so what was appended before a raise stays appended. *)
Definition M (A : Type) : Type := list pyval -> result A * list pyval.

Definition ret {A} (a : A) : M A := fun args => (Ok a, args).

Definition raise {A} (e : exn) : M A := fun args => (Raise e, args).

Definition bind {A B} (m : M A) (f : A -> M B) : M B :=
  fun args =>
    match m args with
    | (Ok a, args') => f a args'
    | (Raise e, args') => (Raise e, args')
    end.

Declare Scope py_scope.
Delimit Scope py_scope with py.
Notation "x <- m ;; k" := (bind m (fun x => k))
  (at level 61, m at next level, right associativity) : py_scope.
Open Scope py_scope.

(** A list comprehension or a [for] loop whose body runs in [M]. *)
Definition for_each {A B} (f : A -> M B) : list A -> M (list B) :=
  fix go (l : list A) : M (list B) :=
    match l with
    | [] => ret []
    | a :: r =>
        b <- f a ;;
        bs <- go r ;;
        ret (b :: bs)
    end.

(** [args.extend(values)] and [args.append(value)], giving [len(args)]
    before and after. *)
Definition args_extend (values : list pyval) : M nat :=
  fun args => (Ok (length args), (args ++ values)%list).

Definition args_append (value : pyval) : M nat :=
  fun args => (Ok (length (args ++ [value])%list), (args ++ [value])%list).

(** Lines 191-201: the binding of [value] for one key of [needs]. *)
Definition bind_key (value : pyval) (context : dict pyval) (key : string)
  : M (dict pyval) :=
  if String.eqb key "value" then
    match value with
    | PList values | PTuple values =>
        let num_values := length values in
        num_args <- args_extend values ;;
        let params := params_list (num_args + 1) num_values in
        ret (dict_set "value" (PStr (parens (join ", " params))) context)
    | _ =>
        len_args <- args_append value ;;
        ret (dict_set "value" (PStr ("$" ++ dec len_args)) context)
    end
  else ret context.

Fixpoint bind_keys (value : pyval) (context : dict pyval) (needs : list string)
  : M (dict pyval) :=
  match needs with
  | [] => ret context
  | key :: rest =>
      context <- bind_key value context key ;;
      bind_keys value context rest
  end.

(** [escape_like(value)]: only text has a [replace] method. *)
Definition escape_like_value (value : pyval) : result pyval :=
  match value with
  | PStr s => Ok (PStr (escape_like s))
  | _ => Raise AttributeError
  end.

(** Lines 177-178: [if like: value = escape_like(value)]. *)
Definition escaped (like : bool) (value : pyval) : result pyval :=
  if like then escape_like_value value else Ok value.

(** Lines 181-183: the wildcards of [OPERATOR_TRANSLATE]. *)
Definition translated (operator : string) (value : pyval) : pyval :=
  match dict_lookup operator OPERATOR_TRANSLATE with
  | Some translate => PStr (resolve_template translate [("value", value)])
  | None => value
  end.

Definition lift {A} (r : result A) : M A := fun args => (r, args).

(** Lines 169-203: one [(operator, value)] pair of a field; gives the clause
    and the context as the next operator of the field finds it. No template
    of the two registries is empty, so [if not template] and [if translate]
    test presence. *)
Definition operator_clause (context : dict pyval) (operator : string)
  (value : pyval) : M (string * dict pyval) :=
  match dict_lookup operator OPERATORS with
  | None => raise (ValueError ("bad operator: " ++ dq ++ operator ++ dq))
  | Some template =>
      let like := str_contains "LIKE" (upper template) in
      let needs := get_context_variables template in
      value <- lift (escaped like value) ;;
      let value := translated operator value in
      let context :=
        if existsb (String.eqb "not") needs
        then dict_set "not" (PStr (if truthy value then "" else "NOT ")) context
        else context in
      let context := dict_set "value" value context in
      context <- bind_keys value context needs ;;
      ret (resolve_template template context, context)
  end.

Fixpoint operator_clauses (context : dict pyval) (ops : dict pyval)
  : M (list string) :=
  match ops with
  | [] => ret []
  | (operator, value) :: rest =>
      cc <- operator_clause context operator value ;;
      cs <- operator_clauses (snd cc) rest ;;
      ret (fst cc :: cs)
  end.

(** Lines 160-207: one [(field, operator_value)] pair of the document. *)
Definition field_clause (kv : string * pyval) : M string :=
  let (field, operator_value) := kv in
  let context := [("field", PStr field)] in
  operator_value <-
    match operator_value with
    | PDict [] => raise AssertionError
    | PDict d => ret d
    | v => ret [("equals", v)]
    end ;;
  clause <- operator_clauses context operator_value ;;
  match clause with
  | _ :: _ :: _ => ret (join " AND " (map parens clause))
  | [c] => ret c
  | [] => raise IndexError
  end.

(** Lines 158-215: a document without a truthy combinator. *)
Definition where_fields (where_ : dict pyval) : M string :=
  clauses <- for_each field_clause where_ ;;
  match clauses with
  | _ :: _ :: _ => ret (join " AND " (map parens clauses))
  | [c] => ret c
  | [] => ret ""
  end.

(** [where.get(key)] together with what the recursion computes on the value
    found: [dict_find f key d] is [f] of the value under [key]. *)
Definition dict_find {A} (f : pyval -> A) (key : string)
  : dict pyval -> option A :=
  fix go (d : dict pyval) : option A :=
    match d with
    | [] => None
    | (k, v) :: r => if String.eqb k key then Some (f v) else go r
    end.

Definition found_truthy {A} (o : option (pyval * A)) : bool :=
  match o with
  | Some (v, _) => truthy v
  | None => false
  end.

Definition found_run {A} (o : option (pyval * M A)) : M A :=
  match o with
  | Some (_, m) => m
  | None => raise TypeError
  end.

(** [[parens(where_clause(a, args)) for a in v]] for the value [v] of a
    combinator, [rec] being [where_clause]. Iterating a dict (its keys) or a
    text (its characters) hands text to [where_clause], which has no [get]
    (AttributeError); None, a number or a boolean is not iterable
    (TypeError). *)
Definition each_clause (rec : pyval -> M string) (v : pyval) : M (list string) :=
  match v with
  | PList l | PTuple l => for_each (fun a => c <- rec a ;; ret (parens c)) l
  | PDict [] | PStr EmptyString => ret []
  | PDict (_ :: _) | PStr (String _ _) => raise AttributeError
  | PNone | PBool _ | PInt _ => raise TypeError
  end.

(** [where_clause(where, args)]. A value that is no dict has no [get]. *)
Fixpoint where_clause (where_ : pyval) : M string :=
  match where_ with
  | PDict d =>
      let ands := dict_find (fun v => (v, each_clause where_clause v)) ".and" d in
      let ors := dict_find (fun v => (v, each_clause where_clause v)) ".or" d in
      let nots := dict_find (fun v => (v, where_clause v)) ".not" d in
      if found_truthy ands then
        cs <- found_run ands ;; ret (join " AND " cs)
      else if found_truthy ors then
        cs <- found_run ors ;; ret (join " OR " cs)
      else if found_truthy nots then
        c <- found_run nots ;; ret ("NOT (" ++ c ++ ")")
      else where_fields d
  | _ => raise AttributeError
  end.

Definition doc (items : list (string * pyval)) : pyval := PDict items.

(** The body of [where_clause] as the source writes it, with [get] giving a
    value. *)
Definition where_body (d : dict pyval) : M string :=
  let ands := dict_get ".and" d in
  let ors := dict_get ".or" d in
  let nots := dict_get ".not" d in
  if truthy ands then
    cs <- each_clause where_clause ands ;; ret (join " AND " cs)
  else if truthy ors then
    cs <- each_clause where_clause ors ;; ret (join " OR " cs)
  else if truthy nots then
    c <- where_clause nots ;; ret ("NOT (" ++ c ++ ")")
  else where_fields d.

(** ** Primary keys (adbc/sql.py, get_pks; adbc/table.py, Table.__init__) *)

Section Descriptors.

(** A column descriptor and its [name]. *)
Variable column : Type.
Variable column_name : column -> string.

(** An index descriptor; [keys] and [columns] are shown as column lists. *)
Record index : Type := mk_index {
  index_name : string;
  index_primary : bool;
  index_keys : list column;
  index_columns : list column
}.

(** A constraint descriptor; [constraint_index_name] is [None] for a
    constraint without an index. *)
Record constraint : Type := mk_constraint {
  constraint_name : string;
  constraint_type : string;
  constraint_columns : list column;
  constraint_index_name : option string
}.

(** Modelled from the spec: [adbc.utils.get_first] is not under src/;
    [get_first(items, fn, key)] is [item[key]] of the first item that [fn]
    accepts, and [None] when there is none. *)
Definition get_first {I A} (items : list I) (fn : I -> bool) (key : I -> A)
  : option A :=
  match find fn items with
  | Some item => Some (key item)
  | None => None
  end.

(** [not pks]: [None] and the empty list are falsy. *)
Definition falsy_pks (pks : option (list column)) : bool :=
  match pks with
  | None | Some [] => true
  | Some (_ :: _) => false
  end.

Definition nonempty {A} (l : list A) : bool :=
  match l with [] => false | _ :: _ => true end.

Definition get_pks (indexes : list index) (constraints : list constraint)
  (columns : list column) : list column :=
  let pks : option (list column) := None in
  let pks :=
    if nonempty indexes
    then get_first indexes index_primary index_columns
    else pks in
  let pks :=
    if falsy_pks pks && nonempty constraints
    then get_first constraints
           (fun item => String.eqb (constraint_type item) "p")
           constraint_columns
    else pks in
  match pks with
  | Some (c :: r) => c :: r
  | None | Some [] => (* full-row pks *) columns
  end.

(** [sorted(items, key=lambda c: c["name"])]: a stable sort by name. *)
Section Sorted.
Variable I : Type.
Variable name_of : I -> string.

Fixpoint insert_by_name (x : I) (l : list I) : list I :=
  match l with
  | [] => [x]
  | y :: r =>
      if String.leb (name_of x) (name_of y) then x :: y :: r
      else y :: insert_by_name x r
  end.

Definition sorted_by_name (l : list I) : list I :=
  fold_right insert_by_name [] l.
End Sorted.

(** [get_by_name(l, name, key)] of table.py, for the index list. *)
Definition get_by_name {A} (l : list index) (name : option string)
  (key : index -> A) : option A :=
  match name with
  | Some n =>
      match find (fun x => String.eqb (index_name x) n) l with
      | Some value => Some (key value)
      | None => None
      end
  | None => None
  end.

Record Table : Type := mk_Table {
  table_name : string;
  table_attributes : list column;
  table_constraints : list constraint;
  table_indexes : list index;
  table_pks : option (list column)
}.

Definition or_empty {A} (o : option (list A)) : list A :=
  match o with
  | Some l => l
  | None => []
  end.

(** [Table.__init__]. [pks] is the [keys] of the index named by the first
    constraint of type p, in the sorted list; [next] gives [None] when there
    is no such constraint. *)
Definition Table_init (name : string)
  (attributes : option (list column))
  (constraints : option (list constraint))
  (indexes : option (list index)) : Table :=
  let attributes := sorted_by_name _ column_name (or_empty attributes) in
  let constraints := sorted_by_name _ constraint_name (or_empty constraints) in
  let indexes := sorted_by_name _ index_name (or_empty indexes) in
  let pks :=
    match
      find (fun c => String.eqb (constraint_type c) "p") constraints
    with
    | Some c => get_by_name indexes (constraint_index_name c) index_keys
    | None => None
    end in
  mk_Table name attributes constraints indexes pks.

End Descriptors.

Arguments mk_index {column}.
Arguments mk_constraint {column}.
Arguments index_primary {column}.
Arguments index_columns {column}.
Arguments index_keys {column}.
Arguments index_name {column}.
Arguments constraint_type {column}.
Arguments constraint_columns {column}.
Arguments constraint_name {column}.
Arguments constraint_index_name {column}.
Arguments get_pks {column}.
Arguments Table_init {column}.
Arguments table_pks {column}.
Arguments table_attributes {column}.

(** ** The hierarchical aggregator (apg/store.py) *)

(** Python's [fmt.format(a, b, ...)] for a format made of literal text and
    [{}] fields; a field beyond the arguments raises IndexError, extra
    arguments are ignored. *)
Fixpoint py_format (fmt : string) (args : list string) : result string :=
  match fmt with
  | EmptyString => Ok ""
  | String "{" (String "}" r) =>
      match args with
      | a :: args' => rbind (py_format r args') (fun s => Ok (a ++ s))
      | [] => Raise IndexError
      end
  | String c r => rbind (py_format r args) (fun s => Ok (String c s))
  end.

Section Store.

(** A digest, its text, and [hashlib.md5], which may refuse its input. *)
Variable digest : Type.
Variable digest_str : digest -> string.
Variable md5 : string -> result digest.

(** A node of the tree: a leaf answers from the database (each answer is a
    value or a failure), a composite has children. *)
Inductive store : Type :=
| Leaf (name : string) (count : result Z)
    (data_hash schema_hash : result digest)
| Composite (name : string) (children : list store).

Definition store_name (s : store) : string :=
  match s with
  | Leaf n _ _ _ => n
  | Composite n _ => n
  end.

(** [[await c for c in s]]: the awaits run in list order, and the first
    failure ends the comprehension. *)
Definition await_all {A B} (f : A -> result B) : list A -> result (list B) :=
  fix go (l : list A) : result (list B) :=
    match l with
    | [] => Ok []
    | a :: r =>
        rbind (f a) (fun b => rbind (go r) (fun bs => Ok (b :: bs)))
    end.

(** [sum(xs)] *)
Definition py_sum (xs : list Z) : Z := fold_left Z.add xs 0%Z.

(** [WithChildren.get_count], and a leaf's own count. *)
Fixpoint get_count (s : store) : result Z :=
  match s with
  | Leaf _ count _ _ => count
  | Composite _ children =>
      rbind (await_all get_count children) (fun counts => Ok (py_sum counts))
  end.

(** The text handed to [md5] by [get_data_hash] / [get_schema_hash]:
    [",".join(["-".format(await ss[0], ss[1]) for ss in s])]. *)
Definition fold_pairs (pairs : list (result digest * string)) : result string :=
  rbind (await_all
           (fun ss : result digest * string =>
              rbind (fst ss) (fun h => py_format "-" [digest_str h; snd ss]))
           pairs)
        (fun parts => Ok (join "," parts)).

Fixpoint get_data_hash (s : store) : result digest :=
  match s with
  | Leaf _ _ data_hash _ => data_hash
  | Composite _ children =>
      let s := map (fun c => (get_data_hash c, store_name c)) children in
      rbind (fold_pairs s) md5
  end.

Fixpoint get_schema_hash (s : store) : result digest :=
  match s with
  | Leaf _ _ _ schema_hash => schema_hash
  | Composite _ children =>
      let s := map (fun c => (get_schema_hash c, store_name c)) children in
      rbind (fold_pairs s) md5
  end.

(** All leaf counts of a tree, left to right. *)
Fixpoint leaf_counts (s : store) : list (result Z) :=
  match s with
  | Leaf _ count _ _ => [count]
  | Composite _ children => flat_map leaf_counts children
  end.

End Store.

Arguments Leaf {digest}.
Arguments Composite {digest}.
Arguments store_name {digest}.
Arguments get_count {digest}.
Arguments leaf_counts {digest}.
Arguments fold_pairs {digest}.
Arguments get_data_hash {digest}.
Arguments get_schema_hash {digest}.

(** ** Definitions used to state the properties *)

(** The reserved keys of a filter document. *)
Definition combinator_key (key : string) : bool :=
  String.eqb key ".and" || String.eqb key ".or" || String.eqb key ".not".

(** The combinator [where_clause] acts on: the first of [.and], [.or],
    [.not] whose value is truthy. *)
Definition active_combinator (d : dict pyval) : option (string * pyval) :=
  if truthy (dict_get ".and" d) then Some (".and", dict_get ".and" d)
  else if truthy (dict_get ".or" d) then Some (".or", dict_get ".or" d)
  else if truthy (dict_get ".not" d) then Some (".not", dict_get ".not" d)
  else None.

(** The identifier grammar read as a full match: a letter, then only
    characters of the class. *)
Definition grammar_ok (s : string) : bool :=
  match s with
  | String c r => is_alpha c && forallb is_ident_char (chars r)
  | EmptyString => false
  end.

(** The starred class followed by [$], as [re_match] unfolds it on
    [IDENTIFIER_REGEX]. *)
Fixpoint tail_match (s : string) : bool :=
  at_eol s ||
  match s with
  | String c r => is_ident_char c && tail_match r
  | EmptyString => false
  end.

(** White space as Python's [str.isspace] sees it on ASCII. *)
Definition is_space (c : ascii) : bool :=
  Ascii.eqb c " " || ((9 <=? code c)%nat && (code c <=? 13)%nat)
  || ((28 <=? code c)%nat && (code c <=? 31)%nat).

Definition has_whitespace (s : string) : bool := existsb is_space (chars s).

(** The escape of a LIKE literal as the specification words it: each of
    backslash, percent and underscore gets a backslash in front, every other
    character stays. *)
Definition escape_one (c : ascii) : string :=
  if Ascii.eqb c bs_char || Ascii.eqb c "%" || Ascii.eqb c "_"
  then String bs_char (String c "")
  else String c "".

Fixpoint escape_each (s : string) : string :=
  match s with
  | EmptyString => EmptyString
  | String c r => escape_one c ++ escape_each r
  end.

(** The pattern-matching operators as the specification's table lists
    them: the operator, the SQL keyword, and what the translation rule puts
    before and after the value. *)
Definition spec_like_rules : dict (string * string * string) :=
  [ ("like", ("LIKE", "", ""));
    ("ilike", ("ILIKE", "", ""));
    ("~", ("LIKE", "", ""));
    ("~~", ("ILIKE", "", ""));
    ("starts.with", ("LIKE", "", "%"));
    ("istarts.with", ("ILIKE", "", "%"));
    ("iends.with", ("ILIKE", "%", ""));
    ("contains", ("LIKE", "%", "%"));
    ("icontains", ("ILIKE", "%", "%")) ].

(** A computation that only appends to [args]. *)
Definition appends {A} (m : M A) : Prop :=
  forall args, exists added, snd (m args) = (args ++ added)%list.

(** The sum of a list of counts. *)
Definition total (counts : list Z) : Z := fold_right Z.add 0%Z counts.

(** ** Further functions of adbc/sql.py *)

(** A [for] loop or comprehension whose body may raise: the first failure
    ends it. *)
Definition try_map {A B} (f : A -> result B) : list A -> result (list B) :=
  fix go (l : list A) : result (list B) :=
    match l with
    | [] => Ok []
    | a :: r => rbind (f a) (fun b => rbind (go r) (fun bs => Ok (b :: bs)))
    end.

(** The body of the loop of [sort_columns]: one leading [-] asks for DESC
    and is cut off ([c[1:]]). *)
Definition sort_column (check : bool) (table schema : option string)
  (c : string) : result string :=
  let direction := "ASC" in
  let dc :=
    match c with
    | String "-" r => ("DESC", r)
    | _ => (direction, c)
    end in
  rbind (format_column (snd dc) check table schema) (fun col =>
  Ok (col ++ " " ++ fst dc)).

(** [sort_columns(cols, check=True, table=None, schema=None)] *)
Definition sort_columns (cols : list string) (check : bool)
  (table schema : option string) : result string :=
  rbind (try_map (sort_column check table schema) cols) (fun columns =>
  Ok (join ", " columns)).

(** [list_columns(cols, check=True, table=None, schema=None, aliases=None)];
    [aliases] is not used by the body. *)
Definition list_columns (cols : list string) (check : bool)
  (table schema : option string) : result string :=
  rbind (try_map (fun c => format_column c check table schema) cols)
        (fun columns => Ok (join ", " columns)).

(** The longest prefix of characters of a class, and what follows it. *)
Fixpoint span (p : ascii -> bool) (s : string) : string * string :=
  match s with
  | String c r =>
      if p c then (String c (fst (span p r)), snd (span p r))
      else (EmptyString, s)
  | EmptyString => (EmptyString, EmptyString)
  end.

(** [TAGGED_NUMBER_REGEX.match(value)] for the pattern
    [[a-zA-Z]+ ([0-9]+)], giving group 1. The letters are followed by a
    space, which is no letter, so only the longest run of letters can
    match; the group is greedy, so it is the longest run of digits. *)
Definition TAGGED_NUMBER_match (value : string) : option string :=
  match span is_alpha value with
  | (String _ _, String " " rest) =>
      match span is_digit rest with
      | (String d ds, _) => Some (String d ds)
      | (EmptyString, _) => None
      end
  | _ => None
  end.

(** [int(digits)] on a run of ASCII digits. *)
Definition py_int (digits : string) : nat :=
  match NilEmpty.uint_of_string digits with
  | Some u => Nat.of_uint u
  | None => 0
  end.

(** [get_tagged_number(value)]. The message is the literal of the source:
    its [f] stands inside the quotes, so nothing is interpolated. *)
Definition get_tagged_number (value : string) : result nat :=
  match TAGGED_NUMBER_match value with
  | None => Raise (Exception_ "fnot a tagged number: {value}")
  | Some group1 => Ok (py_int group1)
  end.

(** [enumerate(args)] *)
Definition enumerate {A} (l : list A) : list (nat * A) :=
  combine (seq 0 (length l)) l.

(** [print_query(query, sep)]; [str_of] is Python's [str] on the values of
    the statement. Unpacking an empty sequence raises ValueError. *)
Definition print_query (str_of : pyval -> string) (query : list pyval)
  (sep : string) : result pyval :=
  match query with
  | [] => Raise (ValueError "not enough values to unpack (expected at least 1, got 0)")
  | query :: args =>
      match args with
      | [] => Ok query
      | _ :: _ =>
          let args :=
            join nl (map (fun ia => "$" ++ dec (fst ia + 1) ++ ": "
                                        ++ str_of (snd ia))
                         (enumerate args)) in
          Ok (PStr (str_of query ++ sep ++ args))
      end
  end.

(** ** Further functions of apg/store.py and adbc/table.py *)

Arguments table_name {column}.
Arguments table_constraints {column}.
Arguments table_indexes {column}.
Arguments get_by_name {column A}.
Arguments sorted_by_name {I}.

(** [Store.get_signature]: the three values are awaited in the order data
    hash, schema hash, count. *)
Definition get_signature {digest : Type} (digest_str : digest -> string)
  (md5 : string -> result digest) (s : store digest) : result string :=
  rbind (get_data_hash digest_str md5 s) (fun data_hash =>
  rbind (get_schema_hash digest_str md5 s) (fun schema_hash =>
  rbind (get_count s) (fun count =>
  Ok (digest_str data_hash ++ "-" ++ digest_str schema_hash ++ "-"
        ++ dec_Z count)))).

(** [Table.get_data_hash_query]; [namespace_name] is [self.namespace.name],
    [column_str] is Python's [str] on a key. Iterating [pks] that is [None]
    raises TypeError. *)
Definition get_data_hash_query {column : Type} (column_str : column -> string)
  (namespace_name : string) (t : Table column) : result (list string) :=
  match table_pks t with
  | None => Raise TypeError
  | Some pks =>
      rbind (try_map (fun x => py_format (dq ++ "{}" ++ dq) [column_str x]) pks)
            (fun keys =>
      rbind (py_format
               ("SELECT md5(array_agg(md5((t.*)::varchar))::varchar)"
                ++ "FROM (SELECT * FROM {}.{} ORDER BY {}) AS t")
               [namespace_name; table_name t; join ", " keys])
            (fun query => Ok [query]))
  end.

(** [Table.get_count_query] *)
Definition get_count_query {column : Type} (namespace_name : string)
  (t : Table column) : result (list string) :=
  rbind (py_format
           ("SELECT COUNT(*) FROM " ++ dq ++ "{}" ++ dq ++ "." ++ dq ++ "{}" ++ dq)
           [namespace_name; table_name t])
        (fun query => Ok [query]).

(** Reading an escaped LIKE literal back: a backslash is dropped and the
    character after it is taken as it is. *)
Fixpoint unescape_from (escaped : bool) (s : string) : string :=
  match s with
  | EmptyString => EmptyString
  | String c r =>
      if escaped then String c (unescape_from false r)
      else if Ascii.eqb c bs_char then unescape_from true r
      else String c (unescape_from false r)
  end.

Definition unescape (s : string) : string := unescape_from false s.

(** The name and the direction an entry of [sort_columns] stands for. *)
Definition sort_name (c : string) : string :=
  match c with
  | String "-" r => r
  | _ => c
  end.

Definition sort_direction (c : string) : string :=
  match c with
  | String "-" _ => "DESC"
  | _ => "ASC"
  end.

(** The identifiers [format_column] checks after the column, in the order
    it checks them: the table when one is given, then the schema when a
    table and a schema are given. *)
Definition qualifier_identifiers (table schema : option string) : list string :=
  match given table with
  | Some t =>
      t :: match given schema with
           | Some s => [s]
           | None => []
           end
  | None => []
  end.

(** The fragment of a column: the quoted names of schema, table and column
    that are given, joined by dots. *)
Definition qualified (table schema : option string) (col : string) : string :=
  match given table with
  | Some t =>
      match given schema with
      | Some s => quote s ++ "." ++ quote t
      | None => quote t
      end ++ "." ++ quote col
  | None => quote col
  end.

(** An identifier that [check_identifier] lets through. *)
Definition checked (ident : string) : bool := is_ok (check_identifier ident).

(** * Properties *)

(** ** Runs of the specification's examples *)

Example check_identifier_user_id : check_identifier "user_id" = Ok "user_id".
Proof. reflexivity. Qed.

Example check_identifier_leading_digit :
  check_identifier "1abc" = Raise (Exception_ "invalid identifier name: 1abc").
Proof. reflexivity. Qed.

Example params_list_from_1 : params_list 1 3 = ["$1"; "$2"; "$3"].
Proof. reflexivity. Qed.

Example OPERATORS_size : length OPERATORS = 31%nat.
Proof. reflexivity. Qed.

Example where_greater :
  where_clause (doc [("age", doc [("greater", PInt 18)])]) []
  = (Ok (dq ++ "age" ++ dq ++ " > $1"), [PInt 18]).
Proof. reflexivity. Qed.

Example where_and :
  where_clause (doc [(".and", PList [doc [("a", PInt 1)]; doc [("b", PInt 2)]])]) []
  = (Ok ("(" ++ dq ++ "a" ++ dq ++ " = $1) AND (" ++ dq ++ "b" ++ dq ++ " = $2)"),
     [PInt 1; PInt 2]).
Proof. reflexivity. Qed.

Example where_bogus :
  where_clause (doc [("a", doc [("bogus", PInt 1)])]) []
  = (Raise (ValueError ("bad operator: " ++ dq ++ "bogus" ++ dq)), []).
Proof. reflexivity. Qed.

(** ** Identifiers *)

Lemma re_match_identifier (s : string) :
  re_match IDENTIFIER_REGEX true s =
  match s with
  | String c r => is_alpha c && tail_match r
  | EmptyString => false
  end.
Proof.
  destruct s as [|c r]; [reflexivity|].
  cbn [re_match IDENTIFIER_REGEX andb]. f_equal.
  generalize false. induction r as [|c' r IH]; intro b.
  - cbn. reflexivity.
  - cbn [tail_match]. cbn [re_match]. rewrite andb_true_r.
    f_equal. f_equal. apply IH.
Qed.

Lemma nl_not_ident : is_ident_char nl_char = false.
Proof. reflexivity. Qed.

Lemma tail_match_class (r : string) :
  forallb is_ident_char (chars r) = true -> tail_match r = true.
Proof.
  induction r as [|c r IH]; cbn [chars forallb]; intro H; [reflexivity|].
  apply andb_true_iff in H as [Hc Hr].
  cbn [tail_match]. rewrite Hc, (IH Hr). cbn. apply orb_true_r.
Qed.

Lemma tail_match_inv (r : string) :
  tail_match r = true ->
  forallb is_ident_char (chars r) = true \/
  exists r0, r = r0 ++ nl /\ forallb is_ident_char (chars r0) = true.
Proof.
  induction r as [|c r IH]; intro H.
  - left. reflexivity.
  - cbn [tail_match] in H. apply orb_true_iff in H as [H|H].
    + right. exists "". destruct r; cbn in H; [|discriminate].
      apply Ascii.eqb_eq in H. subst c. split; reflexivity.
    + apply andb_true_iff in H as [Hc Hr].
      destruct (IH Hr) as [Hall | (r0 & -> & Hall)].
      * left. cbn [chars forallb]. rewrite Hc, Hall. reflexivity.
      * right. exists (String c r0). split; [reflexivity|].
        cbn [chars forallb]. rewrite Hc, Hall. reflexivity.
Qed.

(** Every string of the grammar is returned unchanged. *)
Lemma check_identifier_grammar (s : string) :
  grammar_ok s = true -> check_identifier s = Ok s.
Proof.
  intro H. unfold check_identifier. rewrite re_match_identifier.
  destruct s as [|c r]; [discriminate|].
  cbn [grammar_ok] in H. apply andb_true_iff in H as [Hc Hr].
  rewrite Hc, (tail_match_class _ Hr). reflexivity.
Qed.

(** What [check_identifier] lets through: the grammar, and the grammar
    followed by one newline. *)
Lemma check_identifier_accepts (s s' : string) :
  check_identifier s = Ok s' ->
  s' = s /\
  (grammar_ok s = true \/ exists s0, s = s0 ++ nl /\ grammar_ok s0 = true).
Proof.
  unfold check_identifier. rewrite re_match_identifier.
  destruct s as [|c r]; [discriminate|].
  destruct (is_alpha c) eqn:Hc; [|discriminate].
  destruct (tail_match r) eqn:Hr; [|discriminate].
  cbn. intro H. injection H as <-. split; [reflexivity|].
  destruct (tail_match_inv _ Hr) as [Hall | (r0 & -> & Hall)].
  - left. cbn [grammar_ok]. rewrite Hc, Hall. reflexivity.
  - right. exists (String c r0). split; [reflexivity|].
    cbn [grammar_ok]. rewrite Hc, Hall. reflexivity.
Qed.

(** A string that starts with a digit is refused. *)
Lemma check_identifier_leading_digit_fails (c : ascii) (r : string) :
  is_digit c = true -> is_ok (check_identifier (String c r)) = false.
Proof.
  intro H. unfold check_identifier. rewrite re_match_identifier.
  assert (is_alpha c = false) as ->; [|reflexivity].
  unfold is_digit, is_alpha, is_lower, is_upper, in_range in *.
  cbn [code] in *. change (code "0") with 48%nat in H.
  change (code "9") with 57%nat in H.
  change (code "a") with 97%nat. change (code "z") with 122%nat.
  change (code "A") with 65%nat. change (code "Z") with 90%nat.
  apply andb_true_iff in H as [H1 H2].
  apply Nat.leb_le in H1, H2.
  apply orb_false_iff; split; apply andb_false_iff.
  - left. apply Nat.leb_gt. lia.
  - left. apply Nat.leb_gt. lia.
Qed.

(** C4. [check_identifier] lets a string that contains white space through:
    Python's [$] also matches before a final newline, so the identifier
    followed by a newline is returned as it is. *)
Theorem check_identifier_trailing_newline :
  has_whitespace ("a" ++ nl) = true /\
  grammar_ok ("a" ++ nl) = false /\
  check_identifier ("a" ++ nl) = Ok ("a" ++ nl).
Proof. repeat split; reflexivity. Qed.

(** A character outside the class, other than a newline, makes the check
    fail wherever it stands. *)
Lemma check_identifier_rejects (s : string) (c : ascii) :
  In c (chars s) -> is_ident_char c = false -> c <> nl_char ->
  is_ok (check_identifier s) = false.
Proof.
  intros Hin Hc Hnl.
  destruct (check_identifier s) as [s'|e] eqn:E; [|reflexivity].
  exfalso.
  assert (Hg : forall t, grammar_ok t = true ->
                         forallb is_ident_char (chars t) = true).
  { intros [|a t]; cbn [grammar_ok chars forallb]; [discriminate|].
    intro H. apply andb_true_iff in H as [Ha Ht]. rewrite Ht, andb_true_r.
    unfold is_alpha in Ha. unfold is_ident_char.
    apply orb_true_iff in Ha as [Ha|Ha]; rewrite Ha;
      repeat rewrite ?orb_true_r, ?orb_true_l; reflexivity. }
  assert (Happ : forall a b, chars (a ++ b) = (chars a ++ chars b)%list).
  { intros a b. induction a as [|x a IH]; cbn; [reflexivity|].
    f_equal. exact IH. }
  destruct (check_identifier_accepts _ _ E) as [_ [H | (s0 & -> & H)]].
  - apply Hg in H. rewrite forallb_forall in H.
    rewrite (H c Hin) in Hc. discriminate.
  - apply Hg in H. rewrite forallb_forall in H.
    rewrite Happ in Hin. apply in_app_or in Hin as [Hin|Hin].
    + rewrite (H c Hin) in Hc. discriminate.
    + cbn in Hin. destruct Hin as [Hin|[]]. congruence.
Qed.

(** ** The predicate compiler *)

Lemma dict_find_lookup {A} (f : pyval -> A) (key : string) (d : dict pyval) :
  dict_find f key d = option_map f (dict_lookup key d).
Proof.
  induction d as [|[k v] d IH]; cbn; [reflexivity|].
  destruct (String.eqb k key); [reflexivity|exact IH].
Qed.

(** [where_clause] on a dict is the body the source writes. *)
Lemma where_clause_eq (d : dict pyval) :
  where_clause (PDict d) = where_body d.
Proof.
  cbn [where_clause]. unfold where_body, dict_get.
  rewrite !dict_find_lookup.
  destruct (dict_lookup ".and" d) as [a|]; cbn [option_map found_truthy].
  - destruct (truthy a) eqn:Ta; [reflexivity|].
    destruct (dict_lookup ".or" d) as [o|]; cbn [option_map found_truthy].
    + destruct (truthy o) eqn:To; [reflexivity|].
      destruct (dict_lookup ".not" d) as [n|]; cbn [option_map found_truthy];
        [destruct (truthy n)|]; reflexivity.
    + destruct (dict_lookup ".not" d) as [n|]; cbn [option_map found_truthy];
        [destruct (truthy n)|]; reflexivity.
  - destruct (dict_lookup ".or" d) as [o|]; cbn [option_map found_truthy truthy].
    + destruct (truthy o) eqn:To; [reflexivity|].
      destruct (dict_lookup ".not" d) as [n|]; cbn [option_map found_truthy];
        [destruct (truthy n)|]; reflexivity.
    + destruct (dict_lookup ".not" d) as [n|]; cbn [option_map found_truthy];
        [destruct (truthy n)|]; reflexivity.
Qed.

Lemma where_clause_not_dict (v : pyval) (args : list pyval) :
  (forall d, v <> PDict d) -> where_clause v args = (Raise AttributeError, args).
Proof. destruct v; intro H; try reflexivity. exfalso. apply (H d). reflexivity. Qed.

(** A document with one plain field and one operator compiles to the clause
    of that operator. *)
Lemma where_clause_single (field operator : string) (value : pyval)
  (args : list pyval) :
  combinator_key field = false ->
  where_clause (doc [(field, doc [(operator, value)])]) args =
  match operator_clause [("field", PStr field)] operator value args with
  | (Ok cc, args') => (Ok (fst cc), args')
  | (Raise e, args') => (Raise e, args')
  end.
Proof.
  intro Hk. unfold combinator_key in Hk.
  apply orb_false_iff in Hk as [Hk Hnot].
  apply orb_false_iff in Hk as [Hand Hor].
  unfold doc. rewrite where_clause_eq. unfold where_body, dict_get.
  cbn [dict_lookup]. rewrite Hand, Hor, Hnot. cbn [truthy].
  unfold where_fields, for_each, field_clause, bind, ret.
  cbn [operator_clauses]. unfold bind, ret.
  destruct (operator_clause _ operator value args) as [[[c ctx]|e] args'];
    reflexivity.
Qed.

(** A plain field with a bare value is the [equals] constraint. *)
Lemma where_clause_bare (field : string) (value : pyval) (args : list pyval) :
  combinator_key field = false ->
  (forall d, value <> PDict d) ->
  where_clause (doc [(field, value)]) args =
  where_clause (doc [(field, doc [("equals", value)])]) args.
Proof.
  intros Hk Hv. pose proof Hk as Hk'. unfold combinator_key in Hk.
  apply orb_false_iff in Hk as [Hk Hnot].
  apply orb_false_iff in Hk as [Hand Hor].
  unfold doc. rewrite !where_clause_eq. unfold where_body, dict_get.
  cbn [dict_lookup]. rewrite Hand, Hor, Hnot. cbn [truthy].
  unfold where_fields. cbn [for_each]. unfold field_clause.
  destruct value; try reflexivity. exfalso. apply (Hv d). reflexivity.
Qed.

Lemma dict_lookup_In {V} (key : string) (v : V) (d : dict V) :
  dict_lookup key d = Some v -> In (key, v) d.
Proof.
  induction d as [|[k w] d IH]; cbn; [discriminate|].
  destruct (String.eqb k key) eqn:E.
  - intro H. injection H as ->. apply String.eqb_eq in E. subst. now left.
  - intro H. right. exact (IH H).
Qed.

(** Case analysis over the registry: the operator and its template become
    concrete in every goal. *)
Ltac registry_cases H :=
  apply dict_lookup_In in H; unfold OPERATORS in H; cbn [In] in H;
  repeat (destruct H as [H|H]; [injection H as <- <-|]); [..|contradiction].

(** Every template but the one of [is.null] needs the field and the value. *)
Lemma needs_value (operator template : string) :
  dict_lookup operator OPERATORS = Some template ->
  In "value" (get_context_variables template) ->
  get_context_variables template = ["field"; "value"].
Proof.
  intros H Hin. registry_cases H; try reflexivity.
  exfalso. vm_compute in Hin. destruct Hin as [Hin|[Hin|[]]]; discriminate.
Qed.

Lemma needs_is_null :
  dict_lookup "is.null" OPERATORS
  = Some (dq ++ "{{ field }}" ++ dq ++ " IS {{ not }}NULL")
  /\ get_context_variables (dq ++ "{{ field }}" ++ dq ++ " IS {{ not }}NULL")
     = ["field"; "not"].
Proof. split; reflexivity. Qed.

(** The clause of an operator whose template needs the value: the final
    literal is bound by appending, and the context holds its placeholder. *)
Lemma operator_clause_value (field operator template : string)
  (value literal : pyval) (args : list pyval) :
  dict_lookup operator OPERATORS = Some template ->
  In "value" (get_context_variables template) ->
  rbind (escaped (str_contains "LIKE" (upper template)) value)
        (fun v => Ok (translated operator v)) = Ok literal ->
  operator_clause [("field", PStr field)] operator value args =
  match literal with
  | PList values | PTuple values =>
      let context :=
        [("field", PStr field);
         ("value", PStr (parens (join ", "
                     (params_list (length args + 1) (length values)))))] in
      (Ok (resolve_template template context, context), (args ++ values)%list)
  | _ =>
      let context :=
        [("field", PStr field);
         ("value", PStr ("$" ++ dec (length args + 1)))] in
      (Ok (resolve_template template context, context), (args ++ [literal])%list)
  end.
Proof.
  intros H Hin Hlit. unfold operator_clause. rewrite H.
  rewrite (needs_value _ _ H Hin).
  destruct (escaped _ value) as [v|e]; [|discriminate].
  cbn [rbind] in Hlit. injection Hlit as Hlit. unfold lift, bind at 1.
  rewrite Hlit. cbn [existsb String.eqb Ascii.eqb Bool.eqb orb].
  cbn [bind_keys]. unfold bind_key.
  cbn [String.eqb Ascii.eqb Bool.eqb dict_set].
  unfold bind, ret, args_extend, args_append.
  destruct literal; cbn [dict_set String.eqb Ascii.eqb Bool.eqb];
    rewrite ?length_app; reflexivity.
Qed.

(** The [i]-th placeholder of a sequence carries the length of [args] after
    the [i]-th element is appended. *)
Lemma params_list_nth (args values : list pyval) (i : nat) :
  (i < length values)%nat ->
  nth i (params_list (length args + 1) (length values)) ""
  = "$" ++ dec (length (args ++ firstn (S i) values)%list).
Proof.
  intro Hi. unfold params_list.
  assert (G : forall num a j, (j < num)%nat ->
            nth j (map (fun i => "$" ++ dec (length args + 1 + i)) (seq a num)) ""
            = "$" ++ dec (length args + 1 + (a + j))).
  { induction num as [|num IH]; intros a j Hj; [lia|].
    destruct j as [|j]; cbn [seq map nth].
    - rewrite Nat.add_0_r. reflexivity.
    - rewrite IH by lia. do 2 f_equal. lia. }
  rewrite (G _ 0%nat i Hi), length_app, length_firstn. do 2 f_equal. lia.
Qed.

(** C5. A plain field with one registered operator whose template takes a
    value: the final literal (the value, escaped and given its wildcards for
    the LIKE family) is bound by appending. A list or tuple has all its
    elements appended and becomes the parenthesized, comma-joined
    placeholders; any other literal is appended alone and becomes one
    placeholder. With [args] of length [n] the first new placeholder is
    [n + 1], and each placeholder is the length of [args] right after its
    element is appended. *)
Theorem where_clause_binds_by_appending :
  forall (field operator template : string) (value literal : pyval)
         (args : list pyval),
    combinator_key field = false ->
    dict_lookup operator OPERATORS = Some template ->
    In "value" (get_context_variables template) ->
    rbind (escaped (str_contains "LIKE" (upper template)) value)
          (fun v => Ok (translated operator v)) = Ok literal ->
    where_clause (doc [(field, doc [(operator, value)])]) args =
    match literal with
    | PList values | PTuple values =>
        (Ok (resolve_template template
               [("field", PStr field);
                ("value", PStr (parens (join ", "
                            (params_list (length args + 1) (length values)))))]),
         (args ++ values)%list)
    | _ =>
        (Ok (resolve_template template
               [("field", PStr field);
                ("value", PStr ("$" ++ dec (length args + 1)))]),
         (args ++ [literal])%list)
    end
    /\ (forall values i,
          (literal = PList values \/ literal = PTuple values) ->
          (i < length values)%nat ->
          nth i (params_list (length args + 1) (length values)) ""
          = "$" ++ dec (length (args ++ firstn (S i) values)%list)).
Proof.
  intros field operator template value literal args Hk H Hin Hlit. split.
  - rewrite (where_clause_single _ _ _ _ Hk).
    rewrite (operator_clause_value _ _ _ _ _ _ H Hin Hlit).
    destruct literal; reflexivity.
  - intros values i _ Hi. apply params_list_nth. exact Hi.
Qed.

(** The specification's run of C5: [{"ids": {"in": [1, 2, 3]}}]. *)
Lemma where_clause_binds_in_list :
  where_clause (doc [("ids", doc [("in", PList [PInt 1; PInt 2; PInt 3])])]) []
  = (Ok (dq ++ "ids" ++ dq ++ " IN ($1, $2, $3)"), [PInt 1; PInt 2; PInt 3]).
Proof.
  exact (proj1 (where_clause_binds_by_appending
                  "ids" "in" _ (PList [PInt 1; PInt 2; PInt 3]) _ []
                  eq_refl eq_refl (or_intror (or_introl eq_refl)) eq_refl)).
Defined.

(** ** LIKE literals *)

Lemma append_empty_r (s : string) : s ++ "" = s.
Proof. induction s as [|c s IH]; cbn; [reflexivity|]. now rewrite IH. Qed.

Lemma append_assoc (a b c : string) : (a ++ b) ++ c = a ++ (b ++ c).
Proof. induction a as [|x a IH]; cbn; [reflexivity|]. now rewrite IH. Qed.

Lemma replace_char_app (old : ascii) (new a b : string) :
  replace_char old new (a ++ b)
  = replace_char old new a ++ replace_char old new b.
Proof.
  induction a as [|x a IH]; cbn; [reflexivity|].
  destruct (Ascii.eqb x old); rewrite IH; [|reflexivity].
  now rewrite append_assoc.
Qed.

Lemma escape_like_app (a b : string) :
  escape_like (a ++ b) = escape_like a ++ escape_like b.
Proof. unfold escape_like. now rewrite !replace_char_app. Qed.

Lemma escape_like_char (c : ascii) :
  escape_like (String c "") = escape_one c.
Proof.
  unfold escape_like, escape_one. cbn [replace_char].
  destruct (Ascii.eqb c bs_char) eqn:E1.
  - apply Ascii.eqb_eq in E1. subst c. reflexivity.
  - cbn [replace_char]. destruct (Ascii.eqb c "%") eqn:E2.
    + apply Ascii.eqb_eq in E2. subst c. reflexivity.
    + cbn [replace_char]. destruct (Ascii.eqb c "_") eqn:E3.
      * apply Ascii.eqb_eq in E3. subst c. reflexivity.
      * reflexivity.
Qed.

(** The three replacements of [escape_like] escape each of the three
    characters once, and nothing else. *)
Lemma escape_like_each (s : string) : escape_like s = escape_each s.
Proof.
  induction s as [|c s IH]; [reflexivity|].
  change (String c s) with (String c "" ++ s).
  rewrite escape_like_app, escape_like_char, IH. reflexivity.
Qed.

(** The LIKE family: the template takes the value, and the translation rule
    only puts [%] around the text. *)
Lemma like_family (operator template : string) :
  dict_lookup operator OPERATORS = Some template ->
  str_contains "LIKE" (upper template) = true ->
  In "value" (get_context_variables template) /\
  exists pre post,
    In pre [""; "%"] /\ In post [""; "%"] /\
    forall e, translated operator (PStr e) = PStr (pre ++ e ++ post).
Proof.
  intros H Hlike.
  registry_cases H; try (vm_compute in Hlike; discriminate);
    (split; [vm_compute; tauto|]).
  all: first
    [ exists "", ""; split; [|split]; [cbn; tauto..|];
      intro e; cbn; rewrite ?append_empty_r; reflexivity
    | exists "", "%"; split; [|split]; [cbn; tauto..|];
      intro e; cbn; rewrite ?append_empty_r; reflexivity
    | exists "%", ""; split; [|split]; [cbn; tauto..|];
      intro e; cbn; rewrite ?append_empty_r; reflexivity
    | exists "%", "%"; split; [|split]; [cbn; tauto..|];
      intro e; cbn; rewrite ?append_empty_r; reflexivity ].
Qed.

Lemma translated_wildcards (e : string) :
  translated "starts.with" (PStr e) = PStr (e ++ "%") /\
  translated "istarts.with" (PStr e) = PStr (e ++ "%") /\
  translated "iends.with" (PStr e) = PStr ("%" ++ e) /\
  translated "contains" (PStr e) = PStr ("%" ++ e ++ "%") /\
  translated "icontains" (PStr e) = PStr ("%" ++ e ++ "%") /\
  translated "like" (PStr e) = PStr e /\
  translated "ilike" (PStr e) = PStr e.
Proof. repeat split; cbn; rewrite ?append_empty_r; reflexivity. Qed.

(** The clause of a LIKE operator with the parameter as [translated] gives
    it. *)
Lemma where_clause_like_literal (field operator template s : string)
  (args : list pyval) :
  combinator_key field = false ->
  dict_lookup operator OPERATORS = Some template ->
  str_contains "LIKE" (upper template) = true ->
  where_clause (doc [(field, doc [(operator, PStr s)])]) args =
  (Ok (resolve_template template
         [("field", PStr field);
          ("value", PStr ("$" ++ dec (length args + 1)))]),
   (args ++ [translated operator (PStr (escape_each s))])%list).
Proof.
  intros Hk H Hlike.
  destruct (like_family _ _ H Hlike) as (Hin & pre & post & _ & _ & Htr).
  rewrite (where_clause_single _ _ _ _ Hk).
  rewrite (operator_clause_value field operator template (PStr s)
             (PStr (pre ++ escape_each s ++ post)) args H Hin).
  - rewrite Htr. reflexivity.
  - rewrite Hlike. cbn [escaped escape_like_value rbind].
    rewrite Htr, escape_like_each. reflexivity.
Qed.

(** C6. For every operator of the LIKE family on a plain field with a text
    value: backslash, percent and underscore are escaped in the value, each
    by one backslash in front, and only then the [%] of the operator's
    translation rule is put before or after the escaped text, as the
    specification's table has it for that operator; the result is the bound
    parameter, and the fragment is the quoted field, LIKE or ILIKE, and the
    placeholder of the parameter. *)
Theorem where_clause_escapes_like :
  forall (field operator template s : string) (args : list pyval),
    combinator_key field = false ->
    dict_lookup operator OPERATORS = Some template ->
    str_contains "LIKE" (upper template) = true ->
    escape_like s = escape_each s /\
    exists keyword pre post,
      dict_lookup operator spec_like_rules = Some (keyword, pre, post) /\
      where_clause (doc [(field, doc [(operator, PStr s)])]) args =
      (Ok (dq ++ field ++ dq ++ " " ++ keyword ++ " $"
              ++ dec (length args + 1)),
       (args ++ [PStr (pre ++ escape_each s ++ post)])%list).
Proof.
  intros field operator template s args Hk H Hlike.
  split; [apply escape_like_each|].
  rewrite (where_clause_like_literal _ _ _ _ _ Hk H Hlike).
  clear Hk. registry_cases H; try (vm_compute in Hlike; discriminate);
    clear Hlike;
    (eexists _, _, _; split; [reflexivity|]);
    (apply (f_equal2 pair);
     [ apply f_equal; cbn -[dec Nat.add]; rewrite ?append_empty_r;
       reflexivity
     | apply f_equal; apply (f_equal2 cons); [|reflexivity];
       cbn -[escape_each]; rewrite ?append_empty_r; reflexivity ]).
Qed.

(** C6 at the specification's run: [starts.with] on the field [name] with
    the text [jo%_] binds the escaped text followed by the wildcard. *)
Lemma where_clause_escapes_like_jo :
  where_clause (doc [("name", doc [("starts.with", PStr "jo%_")])]) []
  = (Ok (dq ++ "name" ++ dq ++ " LIKE $1"),
     [PStr ("jo" ++ bs ++ "%" ++ bs ++ "_" ++ "%")]).
Proof.
  destruct (where_clause_escapes_like "name" "starts.with" _ "jo%_" []
              eq_refl eq_refl eq_refl)
    as (_ & keyword & pre & post & Hrule & Hrun).
  injection Hrule as <- <- <-. exact Hrun.
Defined.

(** The specification's runs: [starts.with] on [jo] and on [jo%_]. *)
Example where_starts_with :
  escape_like "jo%_" = "jo" ++ bs ++ "%" ++ bs ++ "_" /\
  where_clause (doc [("name", doc [("starts.with", PStr "jo")])]) []
  = (Ok (dq ++ "name" ++ dq ++ " LIKE $1"), [PStr "jo%"]) /\
  where_clause (doc [("name", doc [("starts.with", PStr "jo%_")])]) []
  = (Ok (dq ++ "name" ++ dq ++ " LIKE $1"),
     [PStr ("jo" ++ bs ++ "%" ++ bs ++ "_" ++ "%")]).
Proof. repeat split; reflexivity. Qed.

(** ** Null checks *)

(** C7. For a plain field, [is.null] renders [IS NULL] for a truthy payload
    and [IS NOT NULL] for a falsy one, and binds no parameter. *)
Theorem where_clause_is_null :
  forall (field : string) (value : pyval) (args : list pyval),
    combinator_key field = false ->
    where_clause (doc [(field, doc [("is.null", value)])]) args =
    (Ok (dq ++ field ++ dq ++ " IS "
            ++ (if truthy value then "" else "NOT ") ++ "NULL"),
     args).
Proof.
  intros field value args Hk.
  rewrite (where_clause_single _ _ _ _ Hk).
  unfold operator_clause.
  destruct needs_is_null as [-> ->].
  change (str_contains "LIKE"
            (upper (dq ++ "{{ field }}" ++ dq ++ " IS {{ not }}NULL")))
    with false.
  unfold escaped, lift, bind, ret.
  change (translated "is.null" value) with value.
  destruct (truthy value); reflexivity.
Qed.

(** The specification's runs of C7. *)
Lemma where_clause_is_null_true_false :
  where_clause (doc [("x", doc [("is.null", PBool true)])]) []
  = (Ok (dq ++ "x" ++ dq ++ " IS NULL"), []) /\
  where_clause (doc [("x", doc [("is.null", PBool false)])]) []
  = (Ok (dq ++ "x" ++ dq ++ " IS NOT NULL"), []).
Proof.
  split.
  - exact (where_clause_is_null "x" (PBool true) [] eq_refl).
  - exact (where_clause_is_null "x" (PBool false) [] eq_refl).
Defined.

(** ** Field names *)

(** A plain field name goes into the clause as it is, whatever it holds:
    no step of [where_clause] looks at its characters. *)
Lemma where_clause_field_verbatim (field : string) (z : Z) (args : list pyval) :
  combinator_key field = false ->
  where_clause (doc [(field, PInt z)]) args =
  (Ok (dq ++ field ++ dq ++ " = $" ++ dec (length args + 1)),
   (args ++ [PInt z])%list).
Proof.
  intro Hk.
  rewrite (where_clause_bare _ _ _ Hk) by discriminate.
  rewrite (where_clause_single _ _ _ _ Hk).
  rewrite (operator_clause_value field "equals" _ (PInt z) (PInt z) args
             eq_refl (or_intror (or_introl eq_refl)) eq_refl).
  cbv zeta. cbn [fst]. do 2 f_equal.
  cbn -[dec Nat.add]. rewrite append_empty_r. reflexivity.
Qed.

(** C1. A field name that [check_identifier] refuses, and that
    [format_column] therefore refuses too, is compiled by [where_clause]
    without any failure: the name, with its quote and the text after it,
    stands in the returned fragment. *)
Theorem where_clause_unchecked_field :
  let field := "x" ++ dq ++ " OR 1=1 --" in
  check_identifier field
  = Raise (Exception_ ("invalid identifier name: " ++ field)) /\
  format_column field true None None
  = Raise (Exception_ ("invalid identifier name: " ++ field)) /\
  where_clause (doc [(field, PInt 1)]) []
  = (Ok (dq ++ field ++ dq ++ " = $1"), [PInt 1]).
Proof. repeat split; reflexivity. Qed.

(** ** Combinators *)

(** C9 as stated fails: an [.and] next to the plain field [b] is compiled,
    not rejected, and [b] leaves no trace. *)
Lemma where_clause_combinator_with_field :
  where_clause
    (doc [(".and", PList [doc [("a", PInt 1)]]); ("b", PInt 2)]) []
  = (Ok ("(" ++ dq ++ "a" ++ dq ++ " = $1)"), [PInt 1]).
Proof. reflexivity. Qed.

Lemma where_body_and (v : pyval) :
  truthy v = true ->
  where_body [(".and", v)]
  = (cs <- each_clause where_clause v ;; ret (join " AND " cs)).
Proof. intro T. unfold where_body, dict_get. cbn. now rewrite T. Qed.

Lemma where_body_or (v : pyval) :
  truthy v = true ->
  where_body [(".or", v)]
  = (cs <- each_clause where_clause v ;; ret (join " OR " cs)).
Proof. intro T. unfold where_body, dict_get. cbn. now rewrite T. Qed.

Lemma where_body_not (v : pyval) :
  truthy v = true ->
  where_body [(".not", v)]
  = (c <- where_clause v ;; ret ("NOT (" ++ c ++ ")")).
Proof. intro T. unfold where_body, dict_get. cbn. now rewrite T. Qed.

(** C9, amended. When a document holds a combinator with a truthy value,
    [where_clause] compiles the first such combinator in the order [.and],
    [.or], [.not] and nothing else: the result and [args] are those of the
    document made of that combinator alone, whatever other keys stand next
    to it. *)
Theorem where_clause_combinator_wins :
  forall (d : dict pyval) (key : string) (v : pyval) (args : list pyval),
    active_combinator d = Some (key, v) ->
    where_clause (doc d) args = where_clause (doc [(key, v)]) args.
Proof.
  intros d key v args H. unfold doc. rewrite !where_clause_eq.
  unfold active_combinator in H.
  destruct (truthy (dict_get ".and" d)) eqn:Ta.
  { injection H as <- <-. rewrite (where_body_and _ Ta).
    unfold where_body. now rewrite Ta. }
  destruct (truthy (dict_get ".or" d)) eqn:To.
  { injection H as <- <-. rewrite (where_body_or _ To).
    unfold where_body. now rewrite Ta, To. }
  destruct (truthy (dict_get ".not" d)) eqn:Tn; [|discriminate].
  injection H as <- <-. rewrite (where_body_not _ Tn).
  unfold where_body. now rewrite Ta, To, Tn.
Qed.

(** C9, amended, at an [.or] that stands after a plain field. *)
Lemma where_clause_combinator_wins_or :
  where_clause
    (doc [("b", PInt 2); (".or", PList [doc [("a", PInt 1)]])]) []
  = where_clause (doc [(".or", PList [doc [("a", PInt 1)]])]) [].
Proof.
  apply (where_clause_combinator_wins
           [("b", PInt 2); (".or", PList [doc [("a", PInt 1)]])]
           ".or" (PList [doc [("a", PInt 1)]]) []).
  reflexivity.
Defined.

(** ** The frame of [args] *)

Section Frame.

Lemma appends_ret {A} (a : A) : appends (ret a).
Proof. intro args. exists []. cbn. now rewrite app_nil_r. Qed.

Lemma appends_raise {A} (e : exn) : appends (@raise A e).
Proof. intro args. exists []. cbn. now rewrite app_nil_r. Qed.

Lemma appends_lift {A} (r : result A) : appends (lift r).
Proof. intro args. exists []. cbn. now rewrite app_nil_r. Qed.

Lemma appends_bind {A B} (m : M A) (f : A -> M B) :
  appends m -> (forall a, appends (f a)) -> appends (bind m f).
Proof.
  intros Hm Hf args. unfold bind.
  destruct (Hm args) as [added1 H1].
  destruct (m args) as [[a|e] args']; cbn [snd] in H1; subst args'.
  - destruct (Hf a (args ++ added1)%list) as [added2 H2].
    exists (added1 ++ added2)%list. now rewrite H2, app_assoc.
  - exists added1. reflexivity.
Qed.

Lemma appends_for_each {A B} (f : A -> M B) (l : list A) :
  Forall (fun a => appends (f a)) l -> appends (for_each f l).
Proof.
  induction 1 as [|a l Ha _ IH]; cbn [for_each]; [apply appends_ret|].
  apply appends_bind; [exact Ha|]. intro b.
  apply appends_bind; [exact IH|]. intro bs. apply appends_ret.
Qed.

Lemma appends_bind_key (value : pyval) (context : dict pyval) (key : string) :
  appends (bind_key value context key).
Proof.
  unfold bind_key. destruct (String.eqb key "value"); [|apply appends_ret].
  assert (He : forall vs, appends (args_extend vs))
    by (intros vs args; exists vs; reflexivity).
  assert (Ha : forall v, appends (args_append v))
    by (intros v args; exists [v]; reflexivity).
  destruct value;
    (apply appends_bind; [first [apply He | apply Ha]|]);
    intro; apply appends_ret.
Qed.

Lemma appends_bind_keys (value : pyval) (needs : list string) :
  forall context, appends (bind_keys value context needs).
Proof.
  induction needs as [|key needs IH]; intro context; cbn [bind_keys].
  - apply appends_ret.
  - apply appends_bind; [apply appends_bind_key|]. intro c. apply IH.
Qed.

Lemma appends_operator_clause (context : dict pyval) (operator : string)
  (value : pyval) : appends (operator_clause context operator value).
Proof.
  unfold operator_clause.
  destruct (dict_lookup operator OPERATORS); [|apply appends_raise].
  apply appends_bind; [apply appends_lift|]. intro v.
  apply appends_bind; [apply appends_bind_keys|]. intro c. apply appends_ret.
Qed.

Lemma appends_operator_clauses (ops : dict pyval) :
  forall context, appends (operator_clauses context ops).
Proof.
  induction ops as [|[operator value] ops IH]; intro context;
    cbn [operator_clauses].
  - apply appends_ret.
  - apply appends_bind; [apply appends_operator_clause|]. intro cc.
    apply appends_bind; [apply IH|]. intro cs. apply appends_ret.
Qed.

Lemma appends_field_clause (kv : string * pyval) : appends (field_clause kv).
Proof.
  destruct kv as [field operator_value]. unfold field_clause.
  apply appends_bind.
  - destruct operator_value; try apply appends_ret.
    destruct d; [apply appends_raise|apply appends_ret].
  - intro ops. apply appends_bind; [apply appends_operator_clauses|].
    intros [|c [|c' cs]];
      [apply appends_raise|apply appends_ret|apply appends_ret].
Qed.

Lemma appends_where_fields (d : dict pyval) : appends (where_fields d).
Proof.
  unfold where_fields. apply appends_bind.
  - apply appends_for_each. apply Forall_forall. intros kv _.
    apply appends_field_clause.
  - intros [|c [|c' cs]]; apply appends_ret.
Qed.

(** Induction over Python values, with the hypothesis on every element of a
    list, a tuple and a dict. *)
Lemma pyval_nested_ind (P : pyval -> Prop) :
  P PNone ->
  (forall b, P (PBool b)) ->
  (forall z, P (PInt z)) ->
  (forall s, P (PStr s)) ->
  (forall l, Forall P l -> P (PList l)) ->
  (forall l, Forall P l -> P (PTuple l)) ->
  (forall d, Forall (fun kv => P (snd kv)) d -> P (PDict d)) ->
  forall v, P v.
Proof.
  intros HNone HBool HInt HStr HList HTuple HDict.
  fix IH 1. intros [ |b|z|s|l|l|d].
  - exact HNone.
  - apply HBool.
  - apply HInt.
  - apply HStr.
  - apply HList. induction l as [|a l IHl]; constructor; [apply IH|exact IHl].
  - apply HTuple. induction l as [|a l IHl]; constructor; [apply IH|exact IHl].
  - apply HDict. induction d as [|[k a] d IHd]; constructor;
      [apply IH|exact IHd].
Qed.

Lemma dict_get_Forall (P : pyval -> Prop) (key : string) (d : dict pyval) :
  P PNone -> Forall (fun kv => P (snd kv)) d -> P (dict_get key d).
Proof.
  intros HN H. unfold dict_get.
  induction H as [|[k v] d Hv _ IH]; cbn [dict_lookup]; [exact HN|].
  destruct (String.eqb k key); [exact Hv|exact IH].
Qed.

Lemma appends_each_clause (l : list pyval) :
  Forall (fun a => appends (where_clause a)) l ->
  appends (for_each (fun a => c <- where_clause a ;; ret (parens c)) l).
Proof.
  intro H. apply appends_for_each.
  eapply Forall_impl; [|exact H]. cbn beta. intros a Ha.
  apply appends_bind; [exact Ha|]. intro c. apply appends_ret.
Qed.

Lemma appends_where_clause_each (v : pyval) :
  appends (where_clause v) /\ appends (each_clause where_clause v).
Proof.
  induction v as [ |b|z|s|l IH|l IH|d IH] using pyval_nested_ind;
    try (split; apply appends_raise).
  - split; [apply appends_raise|].
    destruct s; [apply appends_ret|apply appends_raise].
  - split; [apply appends_raise|]. cbn [each_clause].
    apply appends_each_clause. eapply Forall_impl; [|exact IH].
    cbn beta. tauto.
  - split; [apply appends_raise|]. cbn [each_clause].
    apply appends_each_clause. eapply Forall_impl; [|exact IH].
    cbn beta. tauto.
  - split.
    + rewrite where_clause_eq. unfold where_body.
      assert (HN : appends (where_clause PNone) /\
                   appends (each_clause where_clause PNone))
        by (split; apply appends_raise).
      pose proof (dict_get_Forall
                    (fun v => appends (where_clause v) /\
                              appends (each_clause where_clause v))
                    ".and" d HN IH) as Hand.
      pose proof (dict_get_Forall
                    (fun v => appends (where_clause v) /\
                              appends (each_clause where_clause v))
                    ".or" d HN IH) as Hor.
      pose proof (dict_get_Forall
                    (fun v => appends (where_clause v) /\
                              appends (each_clause where_clause v))
                    ".not" d HN IH) as Hnot.
      cbv beta in Hand, Hor, Hnot.
      destruct Hand as [_ Hand], Hor as [_ Hor], Hnot as [Hnot _].
      destruct (truthy (dict_get ".and" d)).
      { apply appends_bind; [exact Hand|]. intro. apply appends_ret. }
      destruct (truthy (dict_get ".or" d)).
      { apply appends_bind; [exact Hor|]. intro. apply appends_ret. }
      destruct (truthy (dict_get ".not" d)).
      { apply appends_bind; [exact Hnot|]. intro. apply appends_ret. }
      apply appends_where_fields.
    + destruct d; [apply appends_ret|apply appends_raise].
Qed.

End Frame.

(** C10. Whatever the document and whatever [args] holds before the call,
    [args] after the call (also after a call that raises) is the former
    [args], unchanged and in order, followed by what the call appended. *)
Theorem where_clause_appends_only :
  forall (where_ : pyval) (args : list pyval),
    exists added : list pyval,
      snd (where_clause where_ args) = (args ++ added)%list.
Proof.
  intros where_ args.
  exact (proj1 (appends_where_clause_each where_) args).
Qed.

Example where_clause_frame_run :
  where_clause (doc [("a", PInt 1); ("b", doc [("bogus", PInt 2)])])
    [PStr "seed"]
  = (Raise (ValueError ("bad operator: " ++ dq ++ "bogus" ++ dq)),
     [PStr "seed"; PInt 1]).
Proof. reflexivity. Qed.

(** ** Primary keys *)

(** [get_pks] passes over a primary index whose column list is empty
    ([not pks] holds for an empty list) and gives the full column list;
    [Table.__init__] resolves no key at all for a table without a type-p
    constraint. *)
Lemma get_pks_order_fails :
  let indexes := [mk_index "pk" true ["id"] ([] : list string)] in
  find index_primary indexes = Some (mk_index "pk" true ["id"] []) /\
  get_pks indexes [] ["a"; "b"] = ["a"; "b"] /\
  get_pks indexes [] ["a"; "b"] <> [] /\
  table_attributes (Table_init (fun c : string => c) "t" (Some ["a"; "b"]) None None)
  = ["a"; "b"] /\
  table_pks (Table_init (fun c : string => c) "t" (Some ["a"; "b"]) None None)
  = None.
Proof. cbn. repeat split; try reflexivity. discriminate. Qed.

(** [get_pks] resolves in this order: the columns of the first index
    flagged primary, when there is one and its column list is not empty;
    otherwise the columns of the first constraint of type p, when there is
    one and its column list is not empty; otherwise the full column list.
    With no primary index and no type-p constraint it gives the full column
    list. *)
Theorem get_pks_resolution_order :
  forall (column : Type) (indexes : list (index column))
         (constraints : list (constraint column)) (columns : list column),
    let primary := find index_primary indexes in
    let pcon :=
      find (fun c => String.eqb (constraint_type c) "p") constraints in
    (forall i, primary = Some i -> index_columns i <> [] ->
               get_pks indexes constraints columns = index_columns i) /\
    (forall c, (forall i, primary = Some i -> index_columns i = []) ->
               pcon = Some c -> constraint_columns c <> [] ->
               get_pks indexes constraints columns = constraint_columns c) /\
    ((forall i, primary = Some i -> index_columns i = []) ->
     (forall c, pcon = Some c -> constraint_columns c = []) ->
     get_pks indexes constraints columns = columns) /\
    (primary = None -> pcon = None ->
     get_pks indexes constraints columns = columns).
Proof.
  intros column indexes constraints columns primary pcon.
  assert (Hi : get_first indexes index_primary index_columns
               = option_map index_columns primary).
  { unfold get_first, primary. now destruct (find _ indexes). }
  assert (Hc : get_first constraints
                 (fun c => String.eqb (constraint_type c) "p") constraint_columns
               = option_map constraint_columns pcon).
  { unfold get_first, pcon. now destruct (find _ constraints). }
  assert (Hi0 : nonempty indexes = false -> primary = None).
  { unfold primary. destruct indexes; [reflexivity|discriminate]. }
  assert (Hc0 : nonempty constraints = false -> pcon = None).
  { unfold pcon. destruct constraints; [reflexivity|discriminate]. }
  unfold get_pks. rewrite Hi, Hc. clear Hi Hc.
  destruct (nonempty indexes);
    [|rewrite (Hi0 eq_refl); cbn [option_map]];
    (destruct (nonempty constraints);
     [|rewrite (Hc0 eq_refl); cbn [option_map]]);
    clear Hi0 Hc0;
    destruct primary as [i|]; cbn [option_map falsy_pks andb];
    try destruct (index_columns i) as [|x xs] eqn:Ei;
    cbn [falsy_pks andb];
    destruct pcon as [c|]; cbn [option_map];
    try destruct (constraint_columns c) as [|y ys] eqn:Ec;
    repeat split; intros;
    repeat match goal with
           | H : Some _ = Some _ |- _ => injection H as H; subst
           | H : forall i, Some ?j = Some i -> _ |- _ =>
               specialize (H j eq_refl)
           end;
    try congruence.
Qed.

(** On a table with a primary index and a type-p constraint the primary
    index wins. *)
Lemma get_pks_primary_index_first :
  get_pks [mk_index "by_x" false ["x"] ["x"]; mk_index "pk" true ["id"] ["id"]]
          [mk_constraint "c" "p" ["z"] None]
          ["id"; "x"; "z"]
  = ["id"].
Proof.
  apply (proj1 (get_pks_resolution_order string
                  [mk_index "by_x" false ["x"] ["x"];
                   mk_index "pk" true ["id"] ["id"]]
                  [mk_constraint "c" "p" ["z"] None]
                  ["id"; "x"; "z"])
           (mk_index "pk" true ["id"] ["id"])).
  - reflexivity.
  - discriminate.
Defined.

Example get_pks_no_declared_key :
  get_pks ([] : list (index string)) [] ["a"; "b"] = ["a"; "b"].
Proof. reflexivity. Qed.

(** C3. A table constructed with no primary index and no constraint of
    type p does not get the full column list as its key: [get_pks] gives
    the full column list on these descriptors, but [Table.__init__] does
    not call it and leaves the key [None], and the data-hash query, which
    iterates the key, raises TypeError. *)
Theorem Table_init_no_full_row_key :
  let t :=
    Table_init (fun c : string => c) "events" (Some ["id"; "at"])
      (Some []) (Some []) in
  table_attributes t = ["at"; "id"] /\
  get_pks (table_indexes t) (table_constraints t) (table_attributes t)
  = ["at"; "id"] /\
  table_pks t = None /\
  get_data_hash_query (fun c : string => c) "public" t = Raise TypeError.
Proof. repeat split. Qed.

(** ** The hierarchical aggregator *)

Section Aggregator.

Context {digest : Type}.

Lemma py_sum_total (xs : list Z) : py_sum xs = total xs.
Proof.
  unfold py_sum, total.
  assert (G : forall a, fold_left Z.add xs a = (a + fold_right Z.add 0 xs)%Z).
  { induction xs as [|x xs IH]; intro a; cbn; [lia|]. rewrite IH. lia. }
  rewrite G. lia.
Qed.

Lemma total_Permutation (xs ys : list Z) :
  Permutation xs ys -> total xs = total ys.
Proof. unfold total. induction 1; cbn; lia. Qed.

Lemma total_app (xs ys : list Z) : total (xs ++ ys) = (total xs + total ys)%Z.
Proof. unfold total. induction xs as [|x xs IH]; cbn; lia. Qed.

Lemma await_all_ok {A B} (f : A -> result B) (l : list A) (ys : list B) :
  map f l = map Ok ys -> await_all f l = Ok ys.
Proof.
  revert ys. induction l as [|a l IH]; intros [|y ys] H; try discriminate.
  - reflexivity.
  - cbn in H. injection H as Ha Hl. cbn [await_all]. rewrite Ha. cbn [rbind].
    fold (await_all f). rewrite (IH _ Hl). reflexivity.
Qed.

Lemma await_all_inv {A B} (f : A -> result B) (l : list A) (ys : list B) :
  await_all f l = Ok ys -> map f l = map Ok ys.
Proof.
  revert ys. induction l as [|a l IH]; intros ys H.
  - cbn in H. injection H as <-. reflexivity.
  - cbn [await_all] in H. fold (await_all f) in H.
    destruct (f a) as [b|e] eqn:Ea; [|discriminate]. cbn [rbind] in H.
    destruct (await_all f l) as [bs|e] eqn:El; [|discriminate].
    cbn [rbind] in H. injection H as <-. cbn. rewrite Ea, (IH _ eq_refl).
    reflexivity.
Qed.

Lemma get_count_composite (name : string) (children : list (store digest))
  (counts : list Z) :
  map get_count children = map Ok counts ->
  get_count (Composite name children) = Ok (total counts).
Proof.
  intro H. cbn [get_count]. fold (@get_count digest).
  rewrite (await_all_ok _ _ _ H). cbn [rbind]. now rewrite py_sum_total.
Qed.

(** A count that comes back is the sum of the counts of all the leaves. *)
Lemma get_count_leaves :
  forall (s : store digest) (n : Z),
    get_count s = Ok n ->
    exists leaves, leaf_counts s = map Ok leaves /\ total leaves = n.
Proof.
  fix IH 1. intros [name count dh sh | name children] n H.
  - cbn in H. subst count. exists [n]. split; [reflexivity|]. cbn. lia.
  - cbn [get_count] in H. fold (@get_count digest) in H.
    destruct (await_all get_count children) as [counts|e] eqn:E;
      [|discriminate].
    cbn [rbind] in H. injection H as <-. rewrite py_sum_total.
    apply await_all_inv in E. cbn [leaf_counts]. fold (@leaf_counts digest).
    clear name. revert counts E.
    induction children as [|c children IHc]; intros [|k counts] E;
      try discriminate.
    + exists []. split; reflexivity.
    + cbn in E. injection E as Ec Ecs.
      destruct (IH c k Ec) as (l1 & H1 & T1).
      destruct (IHc counts Ecs) as (l2 & H2 & T2).
      exists (l1 ++ l2)%list. cbn [flat_map]. rewrite H1, H2, map_app.
      split; [reflexivity|]. rewrite total_app, T1, T2. reflexivity.
Qed.

End Aggregator.

(** C8. When every child of a composite answers its count, [get_count] of
    the composite is the sum of the children's counts; it is the same for
    every order of the children, and it is the sum of all leaf counts
    below. *)
Theorem composite_get_count_sum :
  forall (digest : Type) (name : string) (children : list (store digest))
         (counts : list Z),
    map (@get_count digest) children = map Ok counts ->
    get_count (Composite name children) = Ok (total counts) /\
    (forall children',
        Permutation children children' ->
        get_count (Composite name children') = Ok (total counts)) /\
    (exists leaves,
        leaf_counts (Composite name children) = map Ok leaves /\
        total leaves = total counts).
Proof.
  intros digest name children counts H.
  pose proof (get_count_composite name children counts H) as Hsum.
  split; [exact Hsum|]. split.
  - intros children' Hp.
    pose proof (Permutation_map (@get_count digest) Hp) as Hm.
    rewrite H in Hm. apply Permutation_sym in Hm.
    destruct (Permutation_map_inv _ _ Hm) as (counts' & E & Hc).
    rewrite (get_count_composite name children' counts' E).
    f_equal. symmetry. apply total_Permutation. exact Hc.
  - exact (get_count_leaves _ _ Hsum).
Qed.

(** C8 on a database of two namespaces, the second one with two tables,
    listed in the other order. *)
Lemma composite_get_count_sum_run :
  get_count
    (Composite "db"
       [Composite "ns2" [Leaf "t2" (Ok 4%Z) (Ok tt) (Ok tt);
                         Leaf "t3" (Ok 5%Z) (Ok tt) (Ok tt)];
        Composite "ns1" [Leaf "t1" (Ok 3%Z) (Ok tt) (Ok tt)]])
  = Ok 12%Z.
Proof.
  apply (proj1 (proj2 (composite_get_count_sum unit "db"
           [Composite "ns1" [Leaf "t1" (Ok 3%Z) (Ok tt) (Ok tt)];
            Composite "ns2" [Leaf "t2" (Ok 4%Z) (Ok tt) (Ok tt);
                             Leaf "t3" (Ok 5%Z) (Ok tt) (Ok tt)]]
           [3%Z; 9%Z] eq_refl))).
  apply perm_swap.
Defined.

(** C2. The text a composite hands to [md5] holds nothing of its children:
    [format] is called on the text [-], which has no field, so each child
    contributes a dash. Whatever the names and the hashes of two children,
    the data hash and the schema hash are [md5] of the same text. *)
Theorem composite_hash_ignores_children :
  forall (digest : Type) (digest_str : digest -> string)
         (md5 : string -> result digest) (name n1 n2 : string)
         (c1 c2 : result Z) (d1 d2 s1 s2 : digest),
    get_data_hash digest_str md5
      (Composite name
         [Leaf n1 c1 (Ok d1) (Ok s1); Leaf n2 c2 (Ok d2) (Ok s2)])
    = md5 "-,-" /\
    get_schema_hash digest_str md5
      (Composite name
         [Leaf n1 c1 (Ok d1) (Ok s1); Leaf n2 c2 (Ok d2) (Ok s2)])
    = md5 "-,-".
Proof. intros. split; reflexivity. Qed.

(** The same in general: with every child answering, the text hashed is one
    dash per child. *)
Lemma fold_pairs_dashes {digest : Type} (digest_str : digest -> string)
  (pairs : list (result digest * string)) (hashes : list digest) :
  map fst pairs = map Ok hashes ->
  fold_pairs digest_str pairs
  = Ok (join "," (map (fun _ => "-") pairs)).
Proof.
  intro H. unfold fold_pairs.
  rewrite (await_all_ok _ _ (map (fun _ => "-") pairs)); [reflexivity|].
  revert hashes H. induction pairs as [|[r n] pairs IH]; intros [|h hashes] H;
    try discriminate; [reflexivity|].
  cbn in H. injection H as -> Hr. cbn. f_equal. exact (IH _ Hr).
Qed.

Example composite_hash_same_for_different_children :
  let md5 := fun s : string => Ok ("md5 of " ++ s) in
  get_data_hash (fun h : string => h) md5
    (Composite "db" [Leaf "t1" (Ok 1%Z) (Ok "aaa") (Ok "s")])
  = get_data_hash (fun h : string => h) md5
    (Composite "db" [Leaf "t2" (Ok 1%Z) (Ok "bbb") (Ok "s")]).
Proof. reflexivity. Qed.

(** * Further properties *)

(** ** Quoting and column lists *)

Lemma check_identifier_cases (ident : string) :
  check_identifier ident =
  if checked ident then Ok ident
  else Raise (Exception_ ("invalid identifier name: " ++ ident)).
Proof.
  unfold checked, check_identifier.
  now destruct (re_match IDENTIFIER_REGEX true ident).
Qed.

(** X1. With the check on, a fragment comes back only when every identifier
    that goes into it passed [check_identifier]: the column, the table when
    one is given, and the schema when a table and a schema are given. The
    fragment is these names, each between double quotes, joined by dots. *)
Theorem format_column_checked :
  forall (col : string) (table schema : option string) (out : string),
    format_column col true table schema = Ok out ->
    checked col = true /\
    match given table with
    | Some t =>
        checked t = true /\
        match given schema with
        | Some s =>
            checked s = true /\
            out = quote s ++ "." ++ quote t ++ "." ++ quote col
        | None => out = quote t ++ "." ++ quote col
        end
    | None => out = quote col
    end.
Proof.
  intros col table schema out. unfold format_column, format_table.
  rewrite (check_identifier_cases col).
  destruct (checked col); cbn [rbind]; [|discriminate].
  destruct (given table) as [t|]; cbn [rbind].
  - rewrite (check_identifier_cases t).
    destruct (checked t); cbn [rbind]; [|discriminate].
    destruct (given schema) as [s|]; cbn [rbind].
    + rewrite (check_identifier_cases s).
      destruct (checked s); cbn [rbind]; [|discriminate].
      intro H. injection H as <-. repeat split.
      unfold quote, dq. cbn. repeat (rewrite append_assoc; cbn). reflexivity.
    + intro H. injection H as <-. repeat split.
  - intro H. injection H as <-. repeat split.
Qed.

Lemma format_column_checked_run :
  checked "id" = true /\
  checked "users" = true /\
  checked "public" = true /\
  quote "public" ++ "." ++ quote "users" ++ "." ++ quote "id"
  = quote "public" ++ "." ++ quote "users" ++ "." ++ quote "id".
Proof.
  exact (format_column_checked "id" (Some "users") (Some "public")
           (quote "public" ++ "." ++ quote "users" ++ "." ++ quote "id")
           eq_refl).
Defined.

(** A schema without a table is dropped: with no table, or an empty one,
    [format_column] neither checks nor renders the schema. *)
Example format_column_schema_needs_table :
  forall (col : string) (check : bool) (schema : option string),
    format_column col check None schema = format_column col check None None /\
    format_column col check (Some "") schema = format_column col check None None /\
    format_column col false None schema = Ok (quote col).
Proof. intros col check schema. repeat split. Qed.

Lemma find_app {A} (p : A -> bool) (l1 l2 : list A) :
  find p (l1 ++ l2) =
  match find p l1 with
  | Some a => Some a
  | None => find p l2
  end.
Proof.
  induction l1 as [|a l1 IH]; cbn [app find]; [reflexivity|].
  now destruct (p a).
Qed.

Lemma format_column_cases (col : string) (check : bool)
  (table schema : option string) :
  format_column col check table schema =
  match (if check
         then find (fun i => negb (checked i))
                (col :: qualifier_identifiers table schema)
         else None) with
  | Some bad => Raise (Exception_ ("invalid identifier name: " ++ bad))
  | None => Ok (qualified table schema col)
  end.
Proof.
  unfold format_column, format_table, qualifier_identifiers, qualified.
  destruct check; cbn [find].
  - rewrite (check_identifier_cases col).
    destruct (checked col); cbn [negb rbind]; [|reflexivity].
    destruct (given table) as [t|]; [|reflexivity]. cbn [find].
    rewrite (check_identifier_cases t).
    destruct (checked t); cbn [negb rbind]; [|reflexivity].
    destruct (given schema) as [s|]; [|reflexivity]. cbn [find].
    rewrite (check_identifier_cases s).
    now destruct (checked s).
  - cbn [rbind]. destruct (given table) as [t|]; [|reflexivity].
    now destruct (given schema).
Qed.

Lemma try_map_first_refused {A B} (f : A -> result B)
  (ids : A -> list string) (g : A -> B) (check : bool) (l : list A) :
  (forall a,
      f a =
      match (if check then find (fun i => negb (checked i)) (ids a)
             else None) with
      | Some bad => Raise (Exception_ ("invalid identifier name: " ++ bad))
      | None => Ok (g a)
      end) ->
  try_map f l =
  match (if check then find (fun i => negb (checked i)) (flat_map ids l)
         else None) with
  | Some bad => Raise (Exception_ ("invalid identifier name: " ++ bad))
  | None => Ok (map g l)
  end.
Proof.
  intro H. induction l as [|a l IH]; [now destruct check|].
  cbn [try_map flat_map map]. fold (try_map f). rewrite H, IH.
  destruct check; [|reflexivity]. rewrite find_app.
  destruct (find _ (ids a)); cbn [rbind]; [reflexivity|].
  now destruct (find _ (flat_map ids l)).
Qed.

(** X2. [list_columns] with the check on checks, column after column, the
    column and then the table and the schema that are given, and fails on
    the first identifier that [check_identifier] refuses, with that
    identifier in the message; otherwise, and always with the check off, it
    gives the fragments of the columns, qualified and quoted, joined by a
    comma and a space. *)
Theorem list_columns_checked :
  forall (cols : list string) (check : bool) (table schema : option string),
    list_columns cols check table schema =
    match (if check
           then find (fun i => negb (checked i))
                  (flat_map (fun c => c :: qualifier_identifiers table schema)
                     cols)
           else None) with
    | Some bad => Raise (Exception_ ("invalid identifier name: " ++ bad))
    | None => Ok (join ", " (map (qualified table schema) cols))
    end.
Proof.
  intros cols check table schema. unfold list_columns.
  rewrite (try_map_first_refused _
             (fun c => c :: qualifier_identifiers table schema)
             (qualified table schema) check).
  - destruct check; [|reflexivity]. now destruct (find _ _).
  - intro c. apply format_column_cases.
Qed.

(** X3. [sort_columns] cuts one leading dash off each entry; with the check
    on it checks, entry after entry, the name that is left and then the
    table and the schema that are given, and fails on the first identifier
    that [check_identifier] refuses, with that identifier in the message;
    otherwise, and always with the check off, each entry gives its
    qualified, quoted name followed by DESC when it had the dash and by ASC
    when not, joined by a comma and a space. *)
Theorem sort_columns_checked :
  forall (cols : list string) (check : bool) (table schema : option string),
    sort_columns cols check table schema =
    match (if check
           then find (fun i => negb (checked i))
                  (flat_map
                     (fun c => sort_name c :: qualifier_identifiers table schema)
                     cols)
           else None) with
    | Some bad => Raise (Exception_ ("invalid identifier name: " ++ bad))
    | None =>
        Ok (join ", "
              (map (fun c => qualified table schema (sort_name c)
                               ++ " " ++ sort_direction c)
                   cols))
    end.
Proof.
  intros cols check table schema. unfold sort_columns.
  rewrite (try_map_first_refused _
             (fun c => sort_name c :: qualifier_identifiers table schema)
             (fun c => qualified table schema (sort_name c)
                         ++ " " ++ sort_direction c) check).
  - destruct check; [|reflexivity]. now destruct (find _ _).
  - intro c. unfold sort_column.
    assert (E : (match c with
                 | String "-" r => ("DESC", r)
                 | _ => ("ASC", c)
                 end) = (sort_direction c, sort_name c)).
    { destruct c as [|a r]; [reflexivity|].
      destruct a as [[] [] [] [] [] [] [] []]; reflexivity. }
    rewrite E. cbn [fst snd]. rewrite format_column_cases.
    destruct check; [|reflexivity]. now destruct (find _ _).
Qed.

Example sort_columns_run :
  sort_columns ["name"; "-created"] true None None
  = Ok (dq ++ "name" ++ dq ++ " ASC, " ++ dq ++ "created" ++ dq ++ " DESC")
  /\ is_ok (sort_columns ["-"] true None None) = false
  /\ is_ok (sort_columns ["--created"] true None None) = false
  /\ sort_columns ["-a"; "b c"] true (Some "bad t") None
     = Raise (Exception_ "invalid identifier name: bad t")
  /\ list_columns ["a"; "b c"] true (Some "t") (Some "s")
     = Raise (Exception_ "invalid identifier name: b c")
  /\ list_columns ["a"; "b"] true (Some "t") (Some "s")
     = Ok (dq ++ "s" ++ dq ++ "." ++ dq ++ "t" ++ dq ++ "." ++ dq ++ "a" ++ dq
           ++ ", "
           ++ dq ++ "s" ++ dq ++ "." ++ dq ++ "t" ++ dq ++ "." ++ dq ++ "b" ++ dq).
Proof. repeat split; reflexivity. Qed.

(** ** Tagged numbers *)

Lemma chars_app (a b : string) : chars (a ++ b) = (chars a ++ chars b)%list.
Proof. induction a as [|x a IH]; cbn; [reflexivity|]. now rewrite IH. Qed.

(** A run of class characters followed by nothing, or by a character
    outside the class, is what [span] cuts off. *)
Lemma span_run (p : ascii -> bool) (a b : string) :
  forallb p (chars a) = true ->
  match b with String c _ => p c = false | EmptyString => True end ->
  span p (a ++ b) = (a, b).
Proof.
  intros Ha Hb. induction a as [|x a IH]; cbn [append].
  - destruct b as [|c r]; [reflexivity|]. cbn [span]. now rewrite Hb.
  - cbn [chars forallb] in Ha. apply andb_true_iff in Ha as [Hx Ha].
    cbn [span]. rewrite Hx, (IH Ha). reflexivity.
Qed.

Lemma span_split (p : ascii -> bool) (s : string) :
  s = fst (span p s) ++ snd (span p s) /\
  forallb p (chars (fst (span p s))) = true.
Proof.
  induction s as [|c r [IH1 IH2]]; [split; reflexivity|].
  cbn [span]. destruct (p c) eqn:E; cbn [fst snd append chars forallb].
  - rewrite E, IH2. split; [|reflexivity]. now rewrite <- IH1.
  - split; reflexivity.
Qed.

Lemma dec_digits (n : nat) : forallb is_digit (chars (dec n)) = true.
Proof.
  unfold dec. generalize (Nat.to_uint n). intro d.
  induction d; cbn; try rewrite IHd; reflexivity.
Qed.

Lemma py_int_dec (n : nat) : py_int (dec n) = n.
Proof.
  unfold py_int, dec. rewrite NilEmpty.usu. apply DecimalNat.Unsigned.of_to.
Qed.

Lemma dec_nonempty (n : nat) : dec n <> "".
Proof.
  intro H. pose proof (py_int_dec n) as P. rewrite H in P. cbn in P.
  subst n. discriminate.
Qed.

(** X4. A tag of letters, a space and a run of digits read back as the
    number of the digits, whatever follows them, as long as it is no
    further digit; the decimal text of a number reads back as that number.
    Of the tag [INSERT 0 5] the first number, 0, is read. *)
Theorem get_tagged_number_reads_first_number :
  forall (tag digits rest : string),
    tag <> "" ->
    forallb is_alpha (chars tag) = true ->
    digits <> "" ->
    forallb is_digit (chars digits) = true ->
    match rest with String c _ => is_digit c = false | EmptyString => True end ->
    get_tagged_number (tag ++ " " ++ digits ++ rest) = Ok (py_int digits) /\
    (forall n : nat, digits = dec n -> py_int digits = n).
Proof.
  intros tag digits rest Htag Halpha Hdigits Hdigit Hrest. split.
  - unfold get_tagged_number, TAGGED_NUMBER_match.
    rewrite (span_run is_alpha tag (" " ++ digits ++ rest) Halpha)
      by reflexivity.
    destruct tag as [|t tag]; [contradiction|].
    cbn [append]. rewrite (span_run is_digit digits rest Hdigit Hrest).
    destruct digits as [|d ds]; [contradiction|]. reflexivity.
  - intros n ->. apply py_int_dec.
Qed.

Lemma get_tagged_number_insert :
  get_tagged_number "INSERT 0 5" = Ok 0%nat.
Proof.
  apply (proj1 (get_tagged_number_reads_first_number "INSERT" "0" " 5"
                  ltac:(discriminate) eq_refl ltac:(discriminate)
                  eq_refl eq_refl)).
Defined.

(** X5. A value read by [get_tagged_number] starts with a run of letters,
    one space and a run of digits, and the number is that of the digits. *)
Theorem get_tagged_number_shape :
  forall (value : string) (n : nat),
    get_tagged_number value = Ok n ->
    exists tag digits rest,
      value = tag ++ " " ++ digits ++ rest /\
      tag <> "" /\ forallb is_alpha (chars tag) = true /\
      digits <> "" /\ forallb is_digit (chars digits) = true /\
      n = py_int digits.
Proof.
  intros value n. unfold get_tagged_number, TAGGED_NUMBER_match.
  destruct (span_split is_alpha value) as [Hv Ha].
  destruct (span is_alpha value) as [tag after]. cbn [fst snd] in Hv, Ha.
  destruct tag as [|t tag]; [discriminate|].
  destruct after as [|sp after]; [discriminate|].
  destruct sp as [[] [] [] [] [] [] [] []]; try discriminate.
  destruct (span_split is_digit after) as [Hr Hd].
  destruct (span is_digit after) as [digits rest]. cbn [fst snd] in Hr, Hd.
  destruct digits as [|d ds]; [discriminate|].
  intro H. injection H as <-.
  exists (String t tag), (String d ds), rest.
  repeat split; try assumption; try discriminate.
  rewrite Hv, Hr. reflexivity.
Qed.

Lemma get_tagged_number_shape_run :
  exists tag digits rest,
    "UPDATE 12" = tag ++ " " ++ digits ++ rest /\
    tag <> "" /\ forallb is_alpha (chars tag) = true /\
    digits <> "" /\ forallb is_digit (chars digits) = true /\
    12%nat = py_int digits.
Proof.
  exact (get_tagged_number_shape "UPDATE 12" 12 eq_refl).
Defined.

(** X6. A value that does not start with a letter is refused, and the
    message is the fixed text of the source: it never shows the value. *)
Theorem get_tagged_number_refuses :
  forall value : string,
    match value with String c _ => is_alpha c = false | EmptyString => True end ->
    get_tagged_number value
    = Raise (Exception_ "fnot a tagged number: {value}").
Proof.
  intros [|c r] H; [reflexivity|].
  unfold get_tagged_number, TAGGED_NUMBER_match. cbn [span]. now rewrite H.
Qed.

Lemma get_tagged_number_refuses_run :
  get_tagged_number "42 rows"
  = Raise (Exception_ "fnot a tagged number: {value}").
Proof. apply (get_tagged_number_refuses "42 rows"). reflexivity. Defined.

(** ** More on LIKE literals and placeholders *)

Lemma unescape_escape_each (s : string) : unescape (escape_each s) = s.
Proof.
  unfold unescape. induction s as [|c s IH]; [reflexivity|].
  cbn [escape_each]. unfold escape_one.
  destruct (Ascii.eqb c bs_char) eqn:E1; cbn [orb append].
  - cbn [unescape_from]. rewrite Ascii.eqb_refl. cbn [unescape_from].
    now rewrite IH.
  - destruct (Ascii.eqb c "%" || Ascii.eqb c "_"); cbn [append unescape_from].
    + rewrite Ascii.eqb_refl. cbn [unescape_from]. now rewrite IH.
    + rewrite E1. now rewrite IH.
Qed.

(** X7. [escape_like] loses nothing: two values with the same escaped text
    are the same value. *)
Theorem escape_like_injective :
  forall a b : string, escape_like a = escape_like b -> a = b.
Proof.
  intros a b H.
  rewrite <- (unescape_escape_each a), <- (unescape_escape_each b).
  rewrite <- !escape_like_each. now rewrite H.
Qed.

Lemma escape_like_injective_run : "50" ++ "%" = "50%".
Proof. apply escape_like_injective. reflexivity. Defined.

(** X8. The placeholders of two successive bindings are those of one
    binding of both: [params_list] of [a + b] numbers from [start] is the
    list of [a] numbers from [start] followed by the list of [b] numbers
    from [start + a], and it has as many entries as asked. *)
Theorem params_list_app :
  forall start a b : nat,
    params_list start (a + b)
    = (params_list start a ++ params_list (start + a) b)%list /\
    length (params_list start (a + b)) = (a + b)%nat.
Proof.
  intros start a b. unfold params_list. split.
  - rewrite seq_app, map_app. f_equal.
    assert (G : forall k l, map (fun i => "$" ++ dec (start + i)) (seq (k + a) l)
                          = map (fun i => "$" ++ dec (start + a + i)) (seq k l)).
    { intros k l. revert k. induction l as [|l IH]; intro k; [reflexivity|].
      cbn [seq map]. f_equal.
      - do 2 f_equal. lia.
      - exact (IH (S k)). }
    exact (G 0%nat b).
  - now rewrite length_map, length_seq.
Qed.

(** ** Failures of the predicate compiler *)

(** X9. An operator that is not registered, on a plain field, makes
    [where_clause] raise ValueError with the operator between double quotes
    in the message, and [args] stays as it was. *)
Theorem where_clause_unknown_operator :
  forall (field operator : string) (value : pyval) (args : list pyval),
    combinator_key field = false ->
    dict_lookup operator OPERATORS = None ->
    where_clause (doc [(field, doc [(operator, value)])]) args
    = (Raise (ValueError ("bad operator: " ++ dq ++ operator ++ dq)), args).
Proof.
  intros field operator value args Hk H.
  rewrite (where_clause_single _ _ _ _ Hk).
  unfold operator_clause. rewrite H. reflexivity.
Qed.

(** [ends.with] has a translation rule and no template. *)
Lemma where_clause_unknown_operator_ends_with :
  where_clause (doc [("name", doc [("ends.with", PStr "son")])]) []
  = (Raise (ValueError ("bad operator: " ++ dq ++ "ends.with" ++ dq)), []).
Proof.
  apply (where_clause_unknown_operator "name" "ends.with" (PStr "son") []);
    reflexivity.
Defined.

(** X10. An empty operator mapping on a plain field fails the assertion:
    [where_clause] raises AssertionError and [args] stays as it was. *)
Theorem where_clause_empty_mapping :
  forall (field : string) (args : list pyval),
    combinator_key field = false ->
    where_clause (doc [(field, PDict [])]) args = (Raise AssertionError, args).
Proof.
  intros field args Hk. unfold combinator_key in Hk.
  apply orb_false_iff in Hk as [Hk Hnot].
  apply orb_false_iff in Hk as [Hand Hor].
  unfold doc. rewrite where_clause_eq. unfold where_body, dict_get.
  cbn [dict_lookup]. rewrite Hand, Hor, Hnot. reflexivity.
Qed.

Lemma where_clause_empty_mapping_run :
  where_clause (doc [("age", PDict [])]) [PInt 7] = (Raise AssertionError, [PInt 7]).
Proof. apply (where_clause_empty_mapping "age" [PInt 7]). reflexivity. Defined.

(** X11. An operator of the LIKE family on a plain field with a value that
    is no text has nothing to escape: [where_clause] raises AttributeError
    and [args] stays as it was. *)
Theorem where_clause_like_needs_text :
  forall (field operator template : string) (value : pyval)
         (args : list pyval),
    combinator_key field = false ->
    dict_lookup operator OPERATORS = Some template ->
    str_contains "LIKE" (upper template) = true ->
    (forall s, value <> PStr s) ->
    where_clause (doc [(field, doc [(operator, value)])]) args
    = (Raise AttributeError, args).
Proof.
  intros field operator template value args Hk H Hlike Hv.
  rewrite (where_clause_single _ _ _ _ Hk).
  unfold operator_clause. rewrite H, Hlike.
  destruct value; try reflexivity. exfalso. apply (Hv s). reflexivity.
Qed.

Lemma where_clause_like_needs_text_run :
  where_clause (doc [("name", doc [("contains", PInt 5)])]) []
  = (Raise AttributeError, []).
Proof.
  apply (where_clause_like_needs_text "name" "contains"
           (dq ++ "{{ field }}" ++ dq ++ " LIKE {{ value }}") (PInt 5) []);
    try reflexivity.
  discriminate.
Defined.

(** X12. A translation rule is only ever applied to escaped text: every
    operator with a translation rule is either registered with a template
    of the LIKE family, or it is [ends.with], which is not registered. *)
Theorem translation_only_for_like :
  forall operator translate : string,
    dict_lookup operator OPERATOR_TRANSLATE = Some translate ->
    match dict_lookup operator OPERATORS with
    | Some template => str_contains "LIKE" (upper template) = true
    | None => operator = "ends.with"
    end.
Proof.
  intros operator translate H.
  apply dict_lookup_In in H. unfold OPERATOR_TRANSLATE in H. cbn [In] in H.
  repeat (destruct H as [H|H]; [injection H as <- <-; reflexivity|]).
  contradiction.
Qed.

Lemma translation_only_for_like_run :
  str_contains "LIKE" (upper (dq ++ "{{ field }}" ++ dq ++ " ILIKE {{ value }}"))
  = true.
Proof.
  exact (translation_only_for_like "icontains" "%{{ value }}%" eq_refl).
Defined.

(** ** Aliases *)

(** X13. An alias compiles like its canonical operator: on a plain field,
    the fragment, the bound parameters and the failures are the same. *)
Theorem where_clause_alias :
  forall (alias canonical field : string) (value : pyval) (args : list pyval),
    In (alias, canonical)
       [ ("ne", "not.equal"); ("!=", "not.equal"); ("<>", "not.equal");
         ("eq", "equal"); ("equals", "equal"); ("=", "equal");
         ("less.than", "less"); ("<", "less");
         ("greater.than", "greater"); (">", "greater");
         ("greater.equal", "at.least"); (">=", "at.least");
         ("less.equal", "at.most"); ("<=", "at.most");
         ("~", "like"); ("~~", "ilike") ] ->
    combinator_key field = false ->
    where_clause (doc [(field, doc [(alias, value)])]) args
    = where_clause (doc [(field, doc [(canonical, value)])]) args.
Proof.
  intros alias canonical field value args Hin Hk.
  rewrite !(where_clause_single _ _ _ _ Hk).
  cbn [In] in Hin.
  repeat (destruct Hin as [Hin|Hin]; [injection Hin as <- <-; reflexivity|]).
  contradiction.
Qed.

Lemma where_clause_alias_run :
  where_clause (doc [("age", doc [(">=", PInt 18)])]) []
  = where_clause (doc [("age", doc [("at.least", PInt 18)])]) [].
Proof.
  apply (where_clause_alias ">=" "at.least" "age" (PInt 18) []).
  - cbn. tauto.
  - reflexivity.
Defined.

(** ** Composition of documents *)

Lemma where_body_and_or_two (key sep : string) (a b : pyval) (args : list pyval) :
  (key = ".and" /\ sep = " AND ") \/ (key = ".or" /\ sep = " OR ") ->
  where_clause (doc [(key, PList [a; b])]) args =
  (ca <- where_clause a ;; cb <- where_clause b ;;
   ret (parens ca ++ sep ++ parens cb)) args.
Proof.
  intros [[-> ->]|[-> ->]]; unfold doc; rewrite where_clause_eq.
  - rewrite where_body_and by reflexivity. cbn [each_clause for_each].
    unfold bind, ret. destruct (where_clause a args) as [[ca|e] args1];
      [|reflexivity].
    destruct (where_clause b args1) as [[cb|e] args2]; reflexivity.
  - rewrite where_body_or by reflexivity. cbn [each_clause for_each].
    unfold bind, ret. destruct (where_clause a args) as [[ca|e] args1];
      [|reflexivity].
    destruct (where_clause b args1) as [[cb|e] args2]; reflexivity.
Qed.

(** X14. Under [.and] (and likewise [.or]) the second document is compiled
    against [args] as the first one left it, so its placeholders go on from
    those of the first; each fragment is put in parentheses and the two are
    joined by the connective. *)
Theorem where_clause_and_or_threads :
  forall (a b : pyval) (args args1 args2 : list pyval) (ca cb : string),
    where_clause a args = (Ok ca, args1) ->
    where_clause b args1 = (Ok cb, args2) ->
    where_clause (doc [(".and", PList [a; b])]) args
    = (Ok ("(" ++ ca ++ ")" ++ " AND " ++ "(" ++ cb ++ ")"), args2) /\
    where_clause (doc [(".or", PList [a; b])]) args
    = (Ok ("(" ++ ca ++ ")" ++ " OR " ++ "(" ++ cb ++ ")"), args2).
Proof.
  intros a b args args1 args2 ca cb Ha Hb. split.
  - rewrite (where_body_and_or_two ".and" " AND ") by tauto.
    unfold bind, ret. rewrite Ha, Hb. unfold parens.
    now rewrite !append_assoc.
  - rewrite (where_body_and_or_two ".or" " OR ") by tauto.
    unfold bind, ret. rewrite Ha, Hb. unfold parens.
    now rewrite !append_assoc.
Qed.

Lemma where_clause_and_or_threads_run :
  where_clause
    (doc [(".and", PList [doc [("a", doc [("in", PList [PInt 1; PInt 2])])];
                          doc [("b", PInt 3)]])]) [PStr "seed"]
  = (Ok ("(" ++ (dq ++ "a" ++ dq ++ " IN ($2, $3)") ++ ")" ++ " AND "
             ++ "(" ++ (dq ++ "b" ++ dq ++ " = $4") ++ ")"),
     [PStr "seed"; PInt 1; PInt 2; PInt 3]).
Proof.
  apply (proj1 (where_clause_and_or_threads
                  (doc [("a", doc [("in", PList [PInt 1; PInt 2])])])
                  (doc [("b", PInt 3)])
                  [PStr "seed"] [PStr "seed"; PInt 1; PInt 2]
                  [PStr "seed"; PInt 1; PInt 2; PInt 3]
                  (dq ++ "a" ++ dq ++ " IN ($2, $3)")
                  (dq ++ "b" ++ dq ++ " = $4") eq_refl eq_refl)).
Defined.

(** X15. Under [.and] (and likewise [.or]) a first document that raises
    ends the compilation: the failure and [args] are those of the first
    document, and the second one is not compiled. *)
Theorem where_clause_and_or_stops :
  forall (a b : pyval) (args args1 : list pyval) (e : exn),
    where_clause a args = (Raise e, args1) ->
    where_clause (doc [(".and", PList [a; b])]) args = (Raise e, args1) /\
    where_clause (doc [(".or", PList [a; b])]) args = (Raise e, args1).
Proof.
  intros a b args args1 e Ha. split.
  - rewrite (where_body_and_or_two ".and" " AND ") by tauto.
    unfold bind. now rewrite Ha.
  - rewrite (where_body_and_or_two ".or" " OR ") by tauto.
    unfold bind. now rewrite Ha.
Qed.

Lemma where_clause_and_or_stops_run :
  where_clause
    (doc [(".and", PList [doc [("a", PInt 1); ("b", doc [("bogus", PInt 2)])];
                          doc [("c", PInt 3)]])]) []
  = (Raise (ValueError ("bad operator: " ++ dq ++ "bogus" ++ dq)), [PInt 1]).
Proof.
  apply (proj1 (where_clause_and_or_stops
                  (doc [("a", PInt 1); ("b", doc [("bogus", PInt 2)])])
                  (doc [("c", PInt 3)]) [] [PInt 1]
                  (ValueError ("bad operator: " ++ dq ++ "bogus" ++ dq))
                  eq_refl)).
Defined.

(** X16. An empty list is falsy, so under a reserved key it is no
    combinator: under every key, [.and], [.or] and [.not] included, an empty
    list compiles to a comparison of a column of that name with an empty
    tuple, and nothing is bound. *)
Theorem where_clause_empty_list :
  forall (key : string) (args : list pyval),
    where_clause (doc [(key, PList [])]) args
    = (Ok (dq ++ key ++ dq ++ " = ()"), args).
Proof.
  intros key args. unfold doc. rewrite where_clause_eq.
  assert (F : forall k, truthy (dict_get k [(key, PList [])]) = false).
  { intro k. unfold dict_get. cbn [dict_lookup].
    now destruct (String.eqb key k). }
  unfold where_body. rewrite !F.
  unfold where_fields, for_each, field_clause, bind, ret.
  cbn [operator_clauses]. unfold bind, ret.
  rewrite (operator_clause_value key "equals" _ (PList []) (PList []) args
             eq_refl (or_intror (or_introl eq_refl)) eq_refl).
  cbv zeta. cbn [fst snd]. rewrite app_nil_r. reflexivity.
Qed.

Lemma plain_keys (field : string) :
  combinator_key field = false ->
  String.eqb field ".and" = false /\ String.eqb field ".or" = false /\
  String.eqb field ".not" = false.
Proof.
  unfold combinator_key. intro H.
  apply orb_false_iff in H as [H Hnot]. apply orb_false_iff in H as [Hand Hor].
  auto.
Qed.

Lemma where_clause_one_field (field : string) (value : pyval)
  (args : list pyval) :
  combinator_key field = false ->
  where_clause (doc [(field, value)]) args =
  match field_clause (field, value) args with
  | (Ok c, args') => (Ok c, args')
  | (Raise e, args') => (Raise e, args')
  end.
Proof.
  intro Hk. destruct (plain_keys _ Hk) as (Hand & Hor & Hnot).
  unfold doc. rewrite where_clause_eq. unfold where_body, dict_get.
  cbn [dict_lookup]. rewrite Hand, Hor, Hnot. cbn [truthy].
  unfold where_fields, for_each, bind, ret.
  now destruct (field_clause (field, value) args) as [[c|e] args'].
Qed.

(** X17. Two plain fields of one document are compiled in the order of the
    document, the second against [args] as the first left it; each fragment
    is put in parentheses and the two are joined by AND. *)
Theorem where_clause_two_fields :
  forall (f1 f2 : string) (v1 v2 : pyval) (args args1 args2 : list pyval)
         (c1 c2 : string),
    combinator_key f1 = false ->
    combinator_key f2 = false ->
    where_clause (doc [(f1, v1)]) args = (Ok c1, args1) ->
    where_clause (doc [(f2, v2)]) args1 = (Ok c2, args2) ->
    where_clause (doc [(f1, v1); (f2, v2)]) args
    = (Ok ("(" ++ c1 ++ ")" ++ " AND " ++ "(" ++ c2 ++ ")"), args2).
Proof.
  intros f1 f2 v1 v2 args args1 args2 c1 c2 Hk1 Hk2 H1 H2.
  rewrite (where_clause_one_field _ _ _ Hk1) in H1.
  rewrite (where_clause_one_field _ _ _ Hk2) in H2.
  destruct (plain_keys _ Hk1) as (Hand1 & Hor1 & Hnot1).
  destruct (plain_keys _ Hk2) as (Hand2 & Hor2 & Hnot2).
  unfold doc. rewrite where_clause_eq. unfold where_body, dict_get.
  cbn [dict_lookup]. rewrite Hand1, Hor1, Hnot1, Hand2, Hor2, Hnot2.
  cbn [truthy]. unfold where_fields, for_each, bind, ret.
  destruct (field_clause (f1, v1) args) as [[c|e] a1]; [|discriminate].
  injection H1 as -> ->.
  destruct (field_clause (f2, v2) args1) as [[c|e] a2]; [|discriminate].
  injection H2 as -> ->.
  cbn [map join]. unfold parens. now rewrite !append_assoc.
Qed.

Lemma where_clause_two_fields_run :
  where_clause (doc [("age", doc [("greater", PInt 18)]); ("name", PStr "jo")]) []
  = (Ok ("(" ++ (dq ++ "age" ++ dq ++ " > $1") ++ ")" ++ " AND "
             ++ "(" ++ (dq ++ "name" ++ dq ++ " = $2") ++ ")"),
     [PInt 18; PStr "jo"]).
Proof.
  apply (where_clause_two_fields "age" "name" (doc [("greater", PInt 18)])
           (PStr "jo") [] [PInt 18] [PInt 18; PStr "jo"]
           (dq ++ "age" ++ dq ++ " > $1") (dq ++ "name" ++ dq ++ " = $2")
           eq_refl eq_refl eq_refl eq_refl).
Defined.

(** ** Printing a statement *)

Lemma print_query_labels_from (str_of : pyval -> string) (l : list pyval) :
  forall k : nat,
    map (fun ia => "$" ++ dec (fst ia + 1) ++ ": " ++ str_of (snd ia))
        (combine (seq k (length l)) l)
    = map (fun pa => fst pa ++ ": " ++ str_of (snd pa))
          (combine (map (fun i => "$" ++ dec (1 + i)) (seq k (length l))) l).
Proof.
  induction l as [|a l IH]; intro k; [reflexivity|].
  cbn [length seq combine map fst snd]. f_equal.
  - replace (k + 1)%nat with (1 + k)%nat by lia. now rewrite append_assoc.
  - apply IH.
Qed.

(** X18. [print_query] gives a statement without parameters back as it is,
    and labels the parameters of a statement by their positions from 1:
    the labels are the placeholders [params_list 1] writes for as many
    values, each followed by a colon, a space and the text of the value,
    one per line after the query and the separator. *)
Theorem print_query_labels :
  forall (str_of : pyval -> string) (query first : pyval)
         (args : list pyval) (sep : string),
    print_query str_of [query] sep = Ok query /\
    print_query str_of (query :: first :: args) sep
    = Ok (PStr (str_of query ++ sep
                  ++ join nl (map (fun pa => fst pa ++ ": " ++ str_of (snd pa))
                                  (combine
                                     (params_list 1 (length (first :: args)))
                                     (first :: args))))).
Proof.
  intros str_of query first args sep. split; [reflexivity|].
  unfold print_query, enumerate, params_list. do 5 f_equal.
  apply print_query_labels_from.
Qed.

(** ** More on the hierarchical aggregator *)

Section AggregatorMore.

Context {digest : Type}.
Variable digest_str : digest -> string.
Variable md5 : string -> result digest.

Lemma await_all_app {A B} (f : A -> result B) (l1 l2 : list A) :
  await_all f (l1 ++ l2) =
  rbind (await_all f l1) (fun xs =>
  rbind (await_all f l2) (fun ys => Ok (xs ++ ys)%list)).
Proof.
  induction l1 as [|a l1 IH]; cbn [app await_all]; fold (await_all f).
  - cbn [rbind]. now destruct (await_all f l2).
  - destruct (f a) as [b|e]; cbn [rbind]; [|reflexivity].
    rewrite IH. destruct (await_all f l1) as [xs|e]; cbn [rbind];
      [|reflexivity].
    now destruct (await_all f l2).
Qed.

Lemma get_count_unfold (name : string) (children : list (store digest)) :
  get_count (Composite name children) =
  rbind (await_all get_count children) (fun counts => Ok (py_sum counts)).
Proof. reflexivity. Qed.

Lemma dashes_length {A B} (l1 : list A) (l2 : list B) :
  length l1 = length l2 ->
  map (fun _ => "-") l1 = map (fun _ => "-") l2.
Proof.
  revert l2. induction l1 as [|a l1 IH]; intros [|b l2] H; try discriminate.
  - reflexivity.
  - cbn. f_equal. apply IH. now injection H.
Qed.

Lemma composite_hash_dashes (name : string) (children : list (store digest))
  (data schema : list digest) :
  map (get_data_hash digest_str md5) children = map Ok data ->
  map (get_schema_hash digest_str md5) children = map Ok schema ->
  get_data_hash digest_str md5 (Composite name children)
  = md5 (join "," (map (fun _ => "-") children)) /\
  get_schema_hash digest_str md5 (Composite name children)
  = md5 (join "," (map (fun _ => "-") children)).
Proof.
  intros Hd Hs. split.
  - cbn [get_data_hash]. fold (get_data_hash digest_str md5).
    rewrite (fold_pairs_dashes digest_str _ data)
      by (now rewrite map_map).
    cbn [rbind]. now rewrite map_map.
  - cbn [get_schema_hash]. fold (get_schema_hash digest_str md5).
    rewrite (fold_pairs_dashes digest_str _ schema)
      by (now rewrite map_map).
    cbn [rbind]. now rewrite map_map.
Qed.

End AggregatorMore.

(** X19. [get_count] of a composite fails with the failure of its first
    child, in list order, that fails; the children after it do not
    matter. *)
Theorem composite_get_count_first_failure :
  forall (digest : Type) (name : string) (before after : list (store digest))
         (child : store digest) (counts : list Z) (e : exn),
    map (@get_count digest) before = map Ok counts ->
    get_count child = Raise e ->
    get_count (Composite name (before ++ child :: after)) = Raise e.
Proof.
  intros digest name before after child counts e Hb Hc.
  rewrite get_count_unfold, await_all_app, (await_all_ok _ _ _ Hb).
  cbn [rbind await_all]. now rewrite Hc.
Qed.

Lemma composite_get_count_first_failure_run :
  get_count
    (Composite "db"
       [Leaf "t1" (Ok 3%Z) (Ok tt) (Ok tt);
        Leaf "t2" (Raise TypeError) (Ok tt) (Ok tt);
        Leaf "t3" (Raise NotImplementedError) (Ok tt) (Ok tt)])
  = Raise TypeError.
Proof.
  apply (composite_get_count_first_failure unit "db"
           [Leaf "t1" (Ok 3%Z) (Ok tt) (Ok tt)]
           [Leaf "t3" (Raise NotImplementedError) (Ok tt) (Ok tt)]
           (Leaf "t2" (Raise TypeError) (Ok tt) (Ok tt)) [3%Z] TypeError);
    reflexivity.
Defined.

(** X20. The count does not see the nesting: a composite among the
    children can be replaced by its own children, in place, and [get_count]
    gives the same count or the same failure. *)
Theorem composite_get_count_flatten :
  forall (digest : Type) (name inner : string)
         (before children after : list (store digest)),
    get_count (Composite name (before ++ Composite inner children :: after))
    = get_count (Composite name (before ++ children ++ after)).
Proof.
  intros digest name inner before children after.
  rewrite !get_count_unfold, !await_all_app.
  destruct (await_all get_count before) as [xs|e]; cbn [rbind];
    [|reflexivity].
  cbn [await_all]. fold (@await_all (store digest) Z get_count).
  rewrite get_count_unfold.
  destruct (await_all get_count children) as [ys|e]; cbn [rbind];
    [|reflexivity].
  destruct (await_all get_count after) as [zs|e]; cbn [rbind];
    [|reflexivity].
  f_equal. rewrite !py_sum_total, !total_app.
  change (total (total ys :: zs)) with (total ys + total zs)%Z. lia.
Qed.

(** X21. [hashlib.md5] refuses text, and a composite hands it text: with
    such an [md5] no composite ever gets a signature. When every child
    answers its data hash, [get_data_hash], [get_schema_hash] (with every
    child answering its schema hash) and [get_signature] of the composite
    raise TypeError. *)
Theorem composite_signature_never_returns :
  forall (digest : Type) (digest_str : digest -> string)
         (md5 : string -> result digest) (name : string)
         (children : list (store digest)),
    (forall text, md5 text = Raise TypeError) ->
    is_ok (get_signature digest_str md5 (Composite name children)) = false /\
    (forall data,
        map (get_data_hash digest_str md5) children = map Ok data ->
        get_data_hash digest_str md5 (Composite name children)
        = Raise TypeError /\
        get_signature digest_str md5 (Composite name children)
        = Raise TypeError) /\
    (forall schema,
        map (get_schema_hash digest_str md5) children = map Ok schema ->
        get_schema_hash digest_str md5 (Composite name children)
        = Raise TypeError).
Proof.
  intros digest digest_str md5 name children Hmd5.
  assert (Hd : forall data,
             map (get_data_hash digest_str md5) children = map Ok data ->
             get_data_hash digest_str md5 (Composite name children)
             = Raise TypeError).
  { intros data H. cbn [get_data_hash]. fold (get_data_hash digest_str md5).
    rewrite (fold_pairs_dashes digest_str _ data) by (now rewrite map_map).
    cbn [rbind]. apply Hmd5. }
  split; [|split].
  - unfold get_signature. cbn [get_data_hash].
    destruct (fold_pairs digest_str _) as [text|e]; cbn [rbind];
      [|reflexivity].
    now rewrite Hmd5.
  - intros data H. split; [exact (Hd data H)|].
    unfold get_signature. now rewrite (Hd data H).
  - intros schema H. cbn [get_schema_hash].
    fold (get_schema_hash digest_str md5).
    rewrite (fold_pairs_dashes digest_str _ schema) by (now rewrite map_map).
    cbn [rbind]. apply Hmd5.
Qed.

Lemma composite_signature_never_returns_run :
  get_signature (fun _ : unit => "") (fun _ => Raise TypeError)
    (Composite "db" [Leaf "users" (Ok 2%Z) (Ok tt) (Ok tt);
                     Leaf "orders" (Ok 5%Z) (Ok tt) (Ok tt)])
  = Raise TypeError.
Proof.
  apply (proj2 (proj1 (proj2
           (composite_signature_never_returns unit (fun _ => "")
              (fun _ => Raise TypeError) "db"
              [Leaf "users" (Ok 2%Z) (Ok tt) (Ok tt);
               Leaf "orders" (Ok 5%Z) (Ok tt) (Ok tt)]
              (fun _ => eq_refl))) [tt; tt] eq_refl)).
Defined.

(** ** Tables *)

Section Tables.

Context {I : Type}.
Variable name_of : I -> string.


Lemma insert_by_name_Permutation (x : I) (l : list I) :
  Permutation (x :: l) (insert_by_name I name_of x l).
Proof.
  induction l as [|y l IH]; cbn [insert_by_name]; [reflexivity|].
  destruct (String.leb (name_of x) (name_of y)); [reflexivity|].
  rewrite perm_swap. now constructor.
Qed.

Lemma sorted_by_name_Permutation (l : list I) :
  Permutation l (sorted_by_name name_of l).
Proof.
  unfold sorted_by_name. induction l as [|x l IH]; cbn [fold_right];
    [constructor|].
  rewrite <- insert_by_name_Permutation. now constructor.
Qed.

Lemma insert_by_name_Sorted (x : I) (l : list I) :
  Sorted.Sorted
    (fun x y => String.leb (name_of x) (name_of y) = true) l ->
  Sorted.Sorted
    (fun x y => String.leb (name_of x) (name_of y) = true)
    (insert_by_name I name_of x l).
Proof.
  induction 1 as [|y l Hs IH Hd]; cbn [insert_by_name].
  - repeat constructor.
  - destruct (String.leb (name_of x) (name_of y)) eqn:E.
    + constructor; [now constructor|]. constructor. exact E.
    + constructor; [exact IH|].
      assert (Hyx : String.leb (name_of y) (name_of x) = true).
      { destruct (String.leb_total (name_of x) (name_of y)) as [H|H];
          [congruence|exact H]. }
      destruct Hd as [|z l Hyz]; cbn [insert_by_name].
      * constructor. exact Hyx.
      * destruct (String.leb (name_of x) (name_of z)); constructor;
          assumption.
Qed.

Lemma sorted_by_name_Sorted (l : list I) :
  Sorted.Sorted
    (fun x y => String.leb (name_of x) (name_of y) = true)
    (sorted_by_name name_of l).
Proof.
  unfold sorted_by_name. induction l as [|x l IH]; cbn [fold_right].
  - constructor.
  - now apply insert_by_name_Sorted.
Qed.

Lemma find_sorted_none (p : I -> bool) (l : list I) :
  (forall x, In x l -> p x = false) ->
  find p (sorted_by_name name_of l) = None.
Proof.
  intro H. destruct (find p (sorted_by_name name_of l)) as [x|] eqn:E;
    [|reflexivity].
  apply find_some in E as [Hin Hp].
  apply (Permutation_in _ (Permutation_sym (sorted_by_name_Permutation l)))
    in Hin.
  rewrite (H x Hin) in Hp. discriminate.
Qed.

Lemma find_sorted_some (p : I -> bool) (l : list I) (x : I) :
  find p (sorted_by_name name_of l) = Some x -> In x l /\ p x = true.
Proof.
  intro E. apply find_some in E as [Hin Hp]. split; [|exact Hp].
  exact (Permutation_in _
           (Permutation_sym (sorted_by_name_Permutation l)) Hin).
Qed.

End Tables.

(** X22. A table keeps its attributes, constraints and indexes sorted by
    name: each stored list is a rearrangement of the list given (the empty
    list for a missing one) in which every name is at most the next. *)
Theorem Table_init_sorted :
  forall (column : Type) (column_name : column -> string) (name : string)
         (attributes : option (list column))
         (constraints : option (list (constraint column)))
         (indexes : option (list (index column))),
    let t := Table_init column_name name attributes constraints indexes in
    (Permutation (or_empty attributes) (table_attributes t) /\
     Sorted.Sorted
       (fun a b => String.leb (column_name a) (column_name b) = true)
       (table_attributes t)) /\
    (Permutation (or_empty constraints) (table_constraints t) /\
     Sorted.Sorted
       (fun a b => String.leb (constraint_name a) (constraint_name b) = true)
       (table_constraints t)) /\
    (Permutation (or_empty indexes) (table_indexes t) /\
     Sorted.Sorted
       (fun a b => String.leb (index_name a) (index_name b) = true)
       (table_indexes t)).
Proof.
  intros. cbn.
  repeat split;
    first [apply sorted_by_name_Permutation | apply sorted_by_name_Sorted].
Qed.

(** X23. Without a constraint of type p a table has no key, whatever its
    indexes, a primary one included, and its data-hash query cannot be
    built: iterating the missing key raises TypeError. *)
Theorem Table_without_p_constraint :
  forall (column : Type) (column_name column_str : column -> string)
         (name namespace_name : string)
         (attributes : option (list column))
         (constraints : option (list (constraint column)))
         (indexes : option (list (index column))),
    (forall c, In c (or_empty constraints) -> constraint_type c <> "p") ->
    let t := Table_init column_name name attributes constraints indexes in
    table_pks t = None /\
    get_data_hash_query column_str namespace_name t = Raise TypeError.
Proof.
  intros column column_name column_str name namespace_name attributes
         constraints indexes H t.
  assert (Hp : table_pks t = None).
  { unfold t, Table_init. cbn [table_pks].
    rewrite find_sorted_none; [reflexivity|].
    intros c Hc. apply String.eqb_neq. exact (H c Hc). }
  split; [exact Hp|]. unfold get_data_hash_query. now rewrite Hp.
Qed.

Lemma Table_without_p_constraint_run :
  let t :=
    Table_init (fun c : string => c) "events" (Some ["id"; "at"])
      (Some [mk_constraint "events_at_check" "c" ["at"] None])
      (Some [mk_index "events_pkey" true ["id"] ["id"]]) in
  table_pks t = None /\
  get_data_hash_query (fun c : string => c) "public" t = Raise TypeError.
Proof.
  apply (Table_without_p_constraint string (fun c => c) (fun c => c)
           "events" "public" (Some ["id"; "at"])
           (Some [mk_constraint "events_at_check" "c" ["at"] None])
           (Some [mk_index "events_pkey" true ["id"] ["id"]])).
  intros c [<-|[]]. discriminate.
Defined.

(** X24. A key that a table resolves is the [keys] of one of its indexes,
    named by one of its constraints of type p. *)
Theorem Table_init_pks_sound :
  forall (column : Type) (column_name : column -> string) (name : string)
         (attributes : option (list column))
         (constraints : option (list (constraint column)))
         (indexes : option (list (index column))) (keys : list column),
    table_pks (Table_init column_name name attributes constraints indexes)
    = Some keys ->
    exists c i,
      In c (or_empty constraints) /\ constraint_type c = "p" /\
      In i (or_empty indexes) /\
      constraint_index_name c = Some (index_name i) /\
      keys = index_keys i.
Proof.
  intros column column_name name attributes constraints indexes keys.
  unfold Table_init. cbn [table_pks].
  destruct (find _ (sorted_by_name constraint_name (or_empty constraints)))
    as [c|] eqn:Ec; [|discriminate].
  apply find_sorted_some in Ec as [Hc Hp]. apply String.eqb_eq in Hp.
  unfold get_by_name.
  destruct (constraint_index_name c) as [n|] eqn:En; [|discriminate].
  destruct (find _ (sorted_by_name index_name (or_empty indexes)))
    as [i|] eqn:Ei; [|discriminate].
  apply find_sorted_some in Ei as [Hi Hn]. apply String.eqb_eq in Hn.
  intro H. injection H as <-. exists c, i. subst n. auto.
Qed.

Lemma Table_init_pks_sound_run :
  exists c i,
    In c [mk_constraint "users_pkey" "p" ["id"] (Some "users_pkey")] /\
    constraint_type c = "p" /\
    In i [mk_index "users_pkey" true ["id"] ["id"];
          mk_index "users_email" false ["email"] ["email"]] /\
    constraint_index_name c = Some (index_name i) /\
    ["id"] = index_keys i.
Proof.
  exact (Table_init_pks_sound string (fun c => c) "users"
           (Some ["id"; "email"])
           (Some [mk_constraint "users_pkey" "p" ["id"] (Some "users_pkey")])
           (Some [mk_index "users_pkey" true ["id"] ["id"];
                  mk_index "users_email" false ["email"] ["email"]])
           ["id"] eq_refl).
Defined.

(** X25. The count query names the table as [format_table] does with the
    check off: for a namespace that is not empty it is
    [SELECT COUNT( * ) FROM] followed by the quoted namespace, a dot and the
    quoted table name; neither name is checked. *)
Theorem get_count_query_format_table :
  forall (column : Type) (namespace_name : string) (t : Table column),
    namespace_name <> "" ->
    format_table (table_name t) (Some namespace_name) false
    = Ok (quote namespace_name ++ "." ++ quote (table_name t)) /\
    get_count_query namespace_name t
    = Ok ["SELECT COUNT(*) FROM "
            ++ quote namespace_name ++ "." ++ quote (table_name t)].
Proof.
  intros column namespace_name t Hns. split.
  - unfold format_table, given.
    destruct (String.eqb namespace_name "") eqn:E; [|reflexivity].
    apply String.eqb_eq in E. contradiction.
  - unfold get_count_query. cbn. unfold quote, dq. cbn.
    repeat (rewrite ?append_assoc, ?append_empty_r; cbn). reflexivity.
Qed.

Lemma get_count_query_format_table_run :
  let t := Table_init (fun c : string => c) "users" None None None in
  format_table "users" (Some "public") false
  = Ok (quote "public" ++ "." ++ quote "users") /\
  get_count_query "public" t
  = Ok ["SELECT COUNT(*) FROM " ++ quote "public" ++ "." ++ quote "users"].
Proof.
  apply (get_count_query_format_table string "public"
           (Table_init (fun c : string => c) "users" None None None)).
  discriminate.
Defined.

(** X26. For a table with a key, the data-hash query orders the rows by
    the keys, each between double quotes, while the namespace and the
    table name go into the text as they are, without quotes; [FROM] follows
    the closing parenthesis of the select list without a space. *)
Theorem get_data_hash_query_text :
  forall (column : Type) (column_str : column -> string)
         (namespace_name : string) (t : Table column) (keys : list column),
    table_pks t = Some keys ->
    get_data_hash_query column_str namespace_name t
    = Ok ["SELECT md5(array_agg(md5((t.*)::varchar))::varchar)"
            ++ "FROM (SELECT * FROM " ++ namespace_name ++ "."
            ++ table_name t ++ " ORDER BY "
            ++ join ", " (map (fun x => quote (column_str x)) keys)
            ++ ") AS t"].
Proof.
  intros column column_str namespace_name t keys H.
  unfold get_data_hash_query. rewrite H.
  assert (E : try_map (fun x => py_format (dq ++ "{}" ++ dq) [column_str x]) keys
              = Ok (map (fun x => quote (column_str x)) keys)).
  { induction keys as [|k keys IH] in |- *; [reflexivity|].
    cbn [try_map map]. fold (@try_map column string).
    rewrite IH. cbn. reflexivity. }
  rewrite E. cbn. reflexivity.
Qed.

Lemma get_data_hash_query_text_run :
  get_data_hash_query (fun c : string => c) "public"
    (Table_init (fun c : string => c) "users" (Some ["id"; "email"])
       (Some [mk_constraint "users_pkey" "p" ["id"] (Some "users_pkey")])
       (Some [mk_index "users_pkey" true ["id"] ["id"]]))
  = Ok ["SELECT md5(array_agg(md5((t.*)::varchar))::varchar)"
          ++ "FROM (SELECT * FROM public.users ORDER BY "
          ++ dq ++ "id" ++ dq ++ ") AS t"].
Proof.
  exact (get_data_hash_query_text string (fun c => c) "public"
           (Table_init (fun c : string => c) "users" (Some ["id"; "email"])
              (Some [mk_constraint "users_pkey" "p" ["id"] (Some "users_pkey")])
              (Some [mk_index "users_pkey" true ["id"] ["id"]]))
           ["id"] eq_refl).
Defined.

(** ** Several operators on one field *)

Lemma dict_lookup_set_same {V} (key : string) (v : V) (d : dict V) :
  dict_lookup key (dict_set key v d) = Some v.
Proof.
  induction d as [|[k w] d IH]; cbn [dict_set dict_lookup].
  - now rewrite String.eqb_refl.
  - destruct (String.eqb k key) eqn:E; cbn [dict_lookup]; rewrite E;
      [reflexivity|exact IH].
Qed.

Lemma dict_lookup_set_other {V} (key key' : string) (v : V) (d : dict V) :
  key <> key' ->
  dict_lookup key (dict_set key' v d) = dict_lookup key d.
Proof.
  intro Hne. induction d as [|[k w] d IH]; cbn [dict_set dict_lookup].
  - destruct (String.eqb key' key) eqn:E; [|reflexivity].
    apply String.eqb_eq in E. congruence.
  - destruct (String.eqb k key') eqn:E; cbn [dict_lookup].
    + apply String.eqb_eq in E. subst k.
      destruct (String.eqb key' key) eqn:E'; [|reflexivity].
      apply String.eqb_eq in E'. congruence.
    + now rewrite IH.
Qed.

(** A template reads the context at its placeholders only. *)
Lemma resolve_template_ext (template : string) (c1 c2 : dict pyval) :
  (forall n, In n (get_context_variables template) ->
             dict_lookup n c1 = dict_lookup n c2) ->
  resolve_template template c1 = resolve_template template c2.
Proof.
  unfold resolve_template, get_context_variables.
  generalize (parse_template template). intros ps H.
  assert (G : forall n, In (Var n) ps -> dict_lookup n c1 = dict_lookup n c2).
  { intros n Hn. apply H. apply nodup_In. apply in_flat_map.
    exists (Var n). split; [exact Hn|now left]. }
  clear H. induction ps as [|p ps IH]; [reflexivity|].
  cbn [map fold_right]. rewrite IH by (intros n Hn; apply G; now right).
  f_equal. destruct p as [c|n]; [reflexivity|].
  cbn [render_piece]. now rewrite (G n (or_introl eq_refl)).
Qed.

Lemma needs_cases (operator template : string) :
  dict_lookup operator OPERATORS = Some template ->
  get_context_variables template = ["field"; "value"] \/
  get_context_variables template = ["field"; "not"].
Proof.
  intro H. registry_cases H; first [now left | now right].
Qed.

(** The clause of an operator reads the field of the context and nothing
    else of it, and leaves the field as it is. *)
Lemma operator_clause_field_only (c1 c2 : dict pyval) (operator : string)
  (value : pyval) (args : list pyval) :
  dict_lookup "field" c1 = dict_lookup "field" c2 ->
  match operator_clause c1 operator value args,
        operator_clause c2 operator value args with
  | (Ok (s1, k1), a1), (Ok (s2, k2), a2) =>
      s1 = s2 /\ a1 = a2 /\ dict_lookup "field" k1 = dict_lookup "field" c1
  | (Raise e1, a1), (Raise e2, a2) => e1 = e2 /\ a1 = a2
  | _, _ => False
  end.
Proof.
  intro Hf. unfold operator_clause.
  destruct (dict_lookup operator OPERATORS) as [template|] eqn:Ht;
    [|split; reflexivity].
  unfold lift, bind at 1 3.
  destruct (escaped _ value) as [lit|e]; [|split; reflexivity].
  set (v := translated operator lit).
  destruct (needs_cases _ _ Ht) as [En | En]; rewrite En;
    cbn [existsb String.eqb Ascii.eqb Bool.eqb orb bind_keys];
    unfold bind_key; cbn [String.eqb Ascii.eqb Bool.eqb];
    unfold bind, ret, args_extend, args_append.
  - assert (R : forall p,
               resolve_template template
                 (dict_set "value" p (dict_set "value" v c1))
               = resolve_template template
                   (dict_set "value" p (dict_set "value" v c2))).
    { intro p. apply resolve_template_ext.
      intros n Hn. rewrite En in Hn. destruct Hn as [<-|[<-|[]]].
      - rewrite !dict_lookup_set_other by discriminate. exact Hf.
      - now rewrite !dict_lookup_set_same. }
    destruct v; (split; [apply R|split; [reflexivity|]]);
      now rewrite !dict_lookup_set_other by discriminate.
  - split; [|split; [reflexivity|]].
    + apply resolve_template_ext. intros n Hn. rewrite En in Hn.
      destruct Hn as [<-|[<-|[]]].
      * rewrite !dict_lookup_set_other by discriminate. exact Hf.
      * rewrite !(dict_lookup_set_other "not" "value") by discriminate.
        now rewrite !dict_lookup_set_same.
    + now rewrite !dict_lookup_set_other by discriminate.
Qed.

(** X27. Two operators on one plain field do not disturb each other,
    although they share the context of the field: the second is compiled
    as it would be alone, against [args] as the first left it; each clause
    is put in parentheses and the two are joined by AND. *)
Theorem where_clause_two_operators :
  forall (field op1 op2 : string) (v1 v2 : pyval)
         (args args1 args2 : list pyval) (c1 c2 : string),
    combinator_key field = false ->
    where_clause (doc [(field, doc [(op1, v1)])]) args = (Ok c1, args1) ->
    where_clause (doc [(field, doc [(op2, v2)])]) args1 = (Ok c2, args2) ->
    where_clause (doc [(field, doc [(op1, v1); (op2, v2)])]) args
    = (Ok ("(" ++ c1 ++ ")" ++ " AND " ++ "(" ++ c2 ++ ")"), args2).
Proof.
  intros field op1 op2 v1 v2 args args1 args2 c1 c2 Hk H1 H2.
  rewrite (where_clause_single _ _ _ _ Hk) in H1.
  rewrite (where_clause_single _ _ _ _ Hk) in H2.
  rewrite (where_clause_one_field _ _ _ Hk).
  unfold field_clause, doc. unfold bind at 1 2. unfold ret at 1.
  cbn [operator_clauses]. unfold bind, ret.
  pose proof (operator_clause_field_only
                [("field", PStr field)] [("field", PStr field)]
                op1 v1 args eq_refl) as P1.
  destruct (operator_clause [("field", PStr field)] op1 v1 args)
    as [[[s1 k1]|e1] a1]; [|discriminate].
  cbn [fst] in H1. injection H1 as -> ->.
  destruct P1 as (_ & _ & Hf).
  pose proof (operator_clause_field_only k1 [("field", PStr field)]
                op2 v2 args1 Hf) as P2.
  destruct (operator_clause [("field", PStr field)] op2 v2 args1)
    as [[[s2 k2]|e2] a2]; [|discriminate].
  cbn [fst] in H2. injection H2 as -> ->.
  cbn [fst snd].
  destruct (operator_clause k1 op2 v2 args1) as [[[s k]|e] a];
    [|contradiction].
  destruct P2 as (-> & -> & _). cbn [fst snd map join].
  unfold parens. rewrite ?append_assoc. reflexivity.
Qed.

Lemma where_clause_two_operators_run :
  where_clause
    (doc [("age", doc [("is.null", PBool false); ("less", PInt 65)])]) []
  = (Ok ("(" ++ (dq ++ "age" ++ dq ++ " IS NOT NULL") ++ ")" ++ " AND "
             ++ "(" ++ (dq ++ "age" ++ dq ++ " < $1") ++ ")"),
     [PInt 65]).
Proof.
  apply (where_clause_two_operators "age" "is.null" "less" (PBool false)
           (PInt 65) [] [] [PInt 65]
           (dq ++ "age" ++ dq ++ " IS NOT NULL") (dq ++ "age" ++ dq ++ " < $1")
           eq_refl eq_refl eq_refl).
Defined.
